(** * Practicum Level 1 (Doctor's Office): the exercise and task-gating engine

    A shallow embedding of [src/components/Quiz.tsx] (the [Quiz] and
    [DoctorOfficeRoom] components), [Certificate] and [App], followed by
    the properties of the gating rules.

    Conventions of the embedding.
    - React state ([useState]) is a record; an event handler is a function
      from the record to the updated record together with what it emits
      (an [alert] or a call of a prop callback).
    - A control that is not rendered, or rendered [disabled], cannot
      receive the event: [dispatch] leaves the state as it is.
    - [Math.random] is a source [Rand]: the value of its n-th call; the
      number of calls made so far is threaded through [shuffle].
    - JS strings are [string]s (the UTF-8 bytes of the source text);
      [===] on strings is equality of the byte sequences.
    - The numeric score is a [nat]: it only ever counts up from 0.
    Audio, timers for hint bubbles, CSS and confetti take no part in any
    decision and are left out. *)

From Stdlib Require Import QArith Qround Ascii String.
From stdpp Require Import gmap strings list fin_maps.

Open Scope string_scope.
Open Scope nat_scope.

(* ===================================================================== *)
(** ** JavaScript primitives used by the components *)
(* ===================================================================== *)

Module JS.

(** The n-th value returned by [Math.random()]. *)
Definition Rand := nat -> Q.

(** A source as the language promises it: every value in [0, 1). *)
Definition fair (rnd : Rand) : Prop := forall n, (0 <= rnd n)%Q /\ (rnd n < 1)%Q.

(** [[a[x], a[y]] = [a[y], a[x]]]: the right-hand side is read first,
    then [a[x]] and [a[y]] are written in that order.  Both indices are
    in range at every call site (for the exact product of
    [random_index], see [random_index_le]); outside the
    range JS would read [undefined] and grow the array, which no caller
    can trigger, and the model leaves the array as it is. *)
Definition swap {T} (a : list T) (x y : nat) : list T :=
  match a !! y, a !! x with
  | Some ay, Some ax => <[y := ax]> (<[x := ay]> a)
  | _, _ => a
  end.

(** [Math.floor(Math.random() * (i + 1))] at the n-th call, with the
    product taken exactly (the code rounds it to a double first). *)
Definition random_index (rnd : Rand) (n i : nat) : nat :=
  Z.to_nat (Qfloor (rnd n * inject_Z (Z.of_nat (i + 1)))).

(** [for (let i = a.length - 1; i > 0; i--) { j = ...; swap }]. *)
Fixpoint shuffle_loop {T} (rnd : Rand) (i : nat) (a : list T) (n : nat)
  : list T * nat :=
  match i with
  | O => (a, n)
  | S i' => shuffle_loop rnd i' (swap a i (random_index rnd n i)) (S n)
  end.

(** Fisher-Yates [shuffle]: works on a copy ([arr.slice()]), returns the
    shuffled copy and the number of random calls made so far. *)
Definition shuffle {T} (rnd : Rand) (arr : list T) (n : nat) : list T * nat :=
  shuffle_loop rnd (length arr - 1) arr n.

(** *** [JSON.stringify] on an array of strings *)

Definition DQUOTE : ascii := ascii_of_nat 34.
Definition BACKSLASH : ascii := ascii_of_nat 92.

Definition hex_digit (n : nat) : ascii :=
  if n <? 10 then ascii_of_nat (48 + n) else ascii_of_nat (87 + n).

(** QuoteJSONString on one code unit: the two-character escapes, the
    [\u00xx] form for the other control characters, everything else as
    it is. *)
Definition escape_char (c : ascii) : string :=
  let n := nat_of_ascii c in
  if n =? 34 then String BACKSLASH (String DQUOTE "")
  else if n =? 92 then String BACKSLASH (String BACKSLASH "")
  else if n =? 8 then "\b"
  else if n =? 12 then "\f"
  else if n =? 10 then "\n"
  else if n =? 13 then "\r"
  else if n =? 9 then "\t"
  else if n <? 32 then
    "\u00" +:+ String (hex_digit (n / 16)) (String (hex_digit (n mod 16)) "")
  else String c "".

Fixpoint escape (s : string) : string :=
  match s with
  | EmptyString => ""
  | String c s' => escape_char c +:+ escape s'
  end.

Definition quote (s : string) : string :=
  String DQUOTE (escape s +:+ String DQUOTE "").

Fixpoint stringify_rest (l : list string) : string :=
  match l with
  | [] => "]"
  | x :: l' => "," +:+ quote x +:+ stringify_rest l'
  end.

Definition JSON_stringify (l : list string) : string :=
  match l with
  | [] => "[]"
  | x :: l' => "[" +:+ quote x +:+ stringify_rest l'
  end.

(** Reading back one escaped code unit (used to show that
    [JSON_stringify] loses nothing). *)
Definition unhex (c : ascii) : option nat :=
  let n := nat_of_ascii c in
  if (48 <=? n) && (n <=? 57) then Some (n - 48)
  else if (97 <=? n) && (n <=? 102) then Some (n - 87)
  else None.

Definition unescape_char (s : string) : option (ascii * string) :=
  match s with
  | EmptyString => None
  | String c r =>
      if Ascii.eqb c DQUOTE then None
      else if Ascii.eqb c BACKSLASH then
        match r with
        | String e r' =>
            if Ascii.eqb e DQUOTE then Some (DQUOTE, r')
            else if Ascii.eqb e BACKSLASH then Some (BACKSLASH, r')
            else if Ascii.eqb e "b" then Some (ascii_of_nat 8, r')
            else if Ascii.eqb e "f" then Some (ascii_of_nat 12, r')
            else if Ascii.eqb e "n" then Some (ascii_of_nat 10, r')
            else if Ascii.eqb e "r" then Some (ascii_of_nat 13, r')
            else if Ascii.eqb e "t" then Some (ascii_of_nat 9, r')
            else if Ascii.eqb e "u" then
              match r' with
              | String _ (String _ (String h (String l r''))) =>
                  match unhex h, unhex l with
                  | Some a, Some b => Some (ascii_of_nat (16 * a + b), r'')
                  | _, _ => None
                  end
              | _ => None
              end
            else None
        | EmptyString => None
        end
      else Some (c, r)
  end.

(** *** Truthiness and [trim] *)

(** [!s] for a value of type [string | null]: [null] and the empty
    string are falsy. *)
Definition falsy (s : option string) : bool :=
  match s with
  | None => true
  | Some s => bool_decide (s = "")
  end.

(** What [String.prototype.trim] strips: the WhiteSpace and
    LineTerminator code points of the language, here as their UTF-8 bytes.
    One byte: U+0009 to U+000D and U+0020. *)
Definition is_space (c : ascii) : bool :=
  let n := nat_of_ascii c in
  ((9 <=? n) && (n <=? 13)) || (n =? 32).

(** Two bytes: U+00A0 (C2 A0). *)
Definition is_space2 (c1 c2 : ascii) : bool :=
  (nat_of_ascii c1 =? 194) && (nat_of_ascii c2 =? 160).

(** Three bytes: U+1680 (E1 9A 80), U+2000 to U+200A (E2 80 80 to 8A),
    U+2028 and U+2029 (E2 80 A8, A9), U+202F (E2 80 AF), U+205F (E2 81 9F),
    U+3000 (E3 80 80) and U+FEFF (EF BB BF). *)
Definition is_space3 (c1 c2 c3 : ascii) : bool :=
  let n1 := nat_of_ascii c1 in
  let n2 := nat_of_ascii c2 in
  let n3 := nat_of_ascii c3 in
  ((n1 =? 225) && (n2 =? 154) && (n3 =? 128))
  || ((n1 =? 226) && (n2 =? 128)
      && (((128 <=? n3) && (n3 <=? 138))
          || (n3 =? 168) || (n3 =? 169) || (n3 =? 175)))
  || ((n1 =? 226) && (n2 =? 129) && (n3 =? 159))
  || ((n1 =? 227) && (n2 =? 128) && (n3 =? 128))
  || ((n1 =? 239) && (n2 =? 187) && (n3 =? 191)).

(** The string without the white space it starts with.  With [back] the
    bytes are read from the end of the string, so those of a code point
    come last byte first. *)
Fixpoint strip (back : bool) (s : string) : string :=
  match s with
  | EmptyString => ""
  | String c1 r1 =>
      if is_space c1 then strip back r1
      else
        match r1 with
        | String c2 r2 =>
            if (if back then is_space2 c2 c1 else is_space2 c1 c2)
            then strip back r2
            else
              match r2 with
              | String c3 r3 =>
                  if (if back then is_space3 c3 c2 c1 else is_space3 c1 c2 c3)
                  then strip back r3
                  else s
              | EmptyString => s
              end
        | EmptyString => s
        end
  end.

Definition reverse (s : string) : string :=
  string_of_list_ascii (rev (list_ascii_of_string s)).

Definition trim_start (s : string) : string := strip false s.

Definition trim_end (s : string) : string := reverse (strip true (reverse s)).

Definition trim (s : string) : string := trim_end (trim_start s).

(** Values passed to the prop callbacks. *)
Inductive Value :=
| VNumber (n : nat)
| VString (s : string)
| VClickEvent.

End JS.

(** What a handler emits besides its state updates. *)
Inductive Callback := onComplete | onFinish | onDone.

Inductive Output :=
| Alert (msg : string)
| Invoke (f : Callback) (args : list JS.Value).

(* ===================================================================== *)
(** ** [Quiz]: four multiple-choice questions, then the reorder task *)
(* ===================================================================== *)

Module Quiz.
Import JS.

Record MCQ := { q : string; choices : list string; correct : string }.

Definition MCQS : list MCQ :=
  [ {| q := "Before discussing PHI with a caller, what must you do first?";
       choices :=
         [ "Verify two patient identifiers (e.g., full name and DOB).";
           "Ask for the insurance group number.";
           "Place the caller on hold and transfer to billing.";
           "Confirm the provider’s NPI." ];
       correct := "Verify two patient identifiers (e.g., full name and DOB)." |};
    {| q := "A spouse requests the patient’s records. What should you confirm next?";
       choices :=
         [ "There is a valid authorization or documented permission allowing spouse access.";
           "That the spouse knows the last visit date.";
           "That the spouse is listed as emergency contact for billing.";
           "That the spouse can pick up any records they want." ];
       correct :=
         "There is a valid authorization or documented permission allowing spouse access." |};
    {| q := "The patient wants records by email today. What is the best next step?";
       choices :=
         [ "Confirm scope & delivery, verify ID/authorization, and follow policy timelines.";
           "Email everything immediately to be helpful.";
           "Decline all email requests for security reasons.";
           "Send only the problem list without documentation." ];
       correct :=
         "Confirm scope & delivery, verify ID/authorization, and follow policy timelines." |};
    {| q := "For minimum necessary, you should:";
       choices :=
         [ "Disclose only what’s needed to fulfill the stated purpose.";
           "Provide the entire chart for convenience.";
           "Refuse all disclosures unless in person.";
           "Share everything if the caller states it’s urgent." ];
       correct := "Disclose only what’s needed to fulfill the stated purpose." |} ].

Definition CORRECT_ORDER : list string :=
  [ "Verify patient identity (two identifiers).";
    "Confirm authorization/permission is valid.";
    "Clarify request scope & preferred delivery method.";
    "Process request (fees/timelines per policy).";
    "Log disclosure per policy." ].

(** [step]: 0..3 are the MCQs, 4 the reorder page, 5 the summary. *)
Record State := {
  step : nat;
  score : nat;
  selected : option string;
  order : list string
}.

(** [randomizedStart]: one shuffle, and one more if the first came out
    equal to [CORRECT_ORDER]. *)
Definition randomizedStart (rnd : Rand) (n : nat) : list string * nat :=
  let '(start, n1) := shuffle rnd CORRECT_ORDER n in
  if bool_decide (JSON_stringify start = JSON_stringify CORRECT_ORDER)
  then shuffle rnd CORRECT_ORDER n1
  else (start, n1).

(** The state at mount: [useState(randomizedStart)]. *)
Definition init (start : list string) : State :=
  {| step := 0; score := 0; selected := None; order := start |}.

(** The first render draws for [shuffledChoices] of question 0 before it
    draws for [randomizedStart]. *)
Definition mount (rnd : Rand) (n : nat) : State :=
  let '(_, n1) := shuffle rnd (from_option choices [] (MCQS !! 0)) n in
  init (randomizedStart rnd n1).1.

Definition isOrderCorrect (st : State) : bool :=
  bool_decide (JSON_stringify (order st) = JSON_stringify CORRECT_ORDER).

Definition moveUp (idx : nat) (st : State) : State :=
  if idx =? 0 then st
  else {| step := step st; score := score st; selected := selected st;
          order := swap (order st) (idx - 1) idx |}.

(** [idx] is the position of a rendered item, so [order] is not empty
    and [order.length - 1] is not negative. *)
Definition moveDown (idx : nat) (st : State) : State :=
  if idx =? length (order st) - 1 then st
  else {| step := step st; score := score st; selected := selected st;
          order := swap (order st) idx (idx + 1) |}.

(** [submitMCQ].  [MCQS[step]] exists whenever the Submit button is
    rendered; past the table the read of [.correct] throws before any
    state update, so the state is left as it is. *)
Definition submitMCQ (st : State) : State :=
  match selected st with
  | None => st
  | Some sel =>
      match MCQS !! step st with
      | None => st
      | Some m =>
          let isCorrect := bool_decide (sel = correct m) in
          {| step := if step st <? length MCQS - 1 then step st + 1
                     else length MCQS;
             score := if isCorrect then score st + 1 else score st;
             selected := None;
             order := order st |}
      end
  end.

Definition submitReorder (st : State) : State :=
  if negb (isOrderCorrect st) then st
  else {| step := length MCQS + 1; score := score st;
          selected := selected st; order := order st |}.

(** The learner's actions on the three pages. *)
Inductive Action :=
| Select (c : string)          (* a radio of the current question *)
| ClickSubmit                  (* "Submit" / "Continue to Reorder" *)
| ClickUp (idx : nat)
| ClickDown (idx : nat)
| ClickFinishQuiz              (* "Finish Quiz" *)
| ClickEnter.                  (* "Enter the Doctor's Office" *)

Definition dispatch (st : State) (a : Action) : State * list Output :=
  if step st <=? length MCQS - 1 then
    (* MCQ page *)
    match a with
    | Select c =>
        match MCQS !! step st with
        | Some m =>
            if bool_decide (c ∈ choices m)
            then ({| step := step st; score := score st;
                     selected := Some c; order := order st |}, [])
            else (st, [])
        | None => (st, [])
        end
    | ClickSubmit =>
        match selected st with
        | None => (st, [])                      (* disabled *)
        | Some _ => (submitMCQ st, [])
        end
    | _ => (st, [])
    end
  else if step st =? length MCQS then
    (* reorder page *)
    match a with
    | ClickUp idx =>
        if idx <? length (order st) then (moveUp idx st, []) else (st, [])
    | ClickDown idx =>
        if idx <? length (order st) then (moveDown idx st, []) else (st, [])
    | ClickFinishQuiz =>
        if isOrderCorrect st then (submitReorder st, []) else (st, [])
    | _ => (st, [])
    end
  else
    (* summary page *)
    match a with
    | ClickEnter => (st, [Invoke onComplete [VNumber (score st)]])
    | _ => (st, [])
    end.

Fixpoint run (st : State) (acts : list Action) : State * list Output :=
  match acts with
  | [] => (st, [])
  | a :: acts' =>
      let '(st1, out1) := dispatch st a in
      let '(st2, out2) := run st1 acts' in
      (st2, (out1 ++ out2)%list)
  end.

(** The answers the learner submitted, in order, each with the index of
    the question it answered: read off the run, not stored by the
    component. *)
Fixpoint submissions (st : State) (acts : list Action) : list (nat * string) :=
  match acts with
  | [] => []
  | a :: acts' =>
      let rest := submissions (dispatch st a).1 acts' in
      match a, selected st with
      | ClickSubmit, Some sel =>
          if step st <=? length MCQS - 1 then (step st, sel) :: rest else rest
      | _, _ => rest
      end
  end.

(** Whether a submitted answer is the designated one of its question. *)
Definition answered_correctly (p : nat * string) : bool :=
  match MCQS !! p.1 with
  | Some m => bool_decide (p.2 = correct m)
  | None => false
  end.

End Quiz.

(* ===================================================================== *)
(** ** [DoctorOfficeRoom]: phone call, coding binder, chart audit *)
(* ===================================================================== *)

Module CodingCase.
Record t := { id : string; prompt : string; choices : list string; correct : string }.
End CodingCase.

Module ChartRow.
Record t := { id : string; label : string; isDefect : bool }.
End ChartRow.

Module Page.
Record t := { id : string; title : string; body : string }.
End Page.

Module Issue.
Record t := { id : string; pageId : string; label : string }.
End Issue.

(** [issues]: exactly 0 or 1 per page. *)
Module ChartDoc.
Record t := { id : string; title : string; pages : list Page.t; issues : list Issue.t }.
End ChartDoc.

(** One radio of the document viewer. *)
Module DocOption.
Record t := { label : string; value : string }.
End DocOption.

Module Room.
Import JS.

Definition nl : string := String (ascii_of_nat 10) "".

Definition DISTRACTOR_POOL : list string :=
  [ "Missing signature date";
    "Wrong patient name";
    "Wrong MRN";
    "No valid authorization for spouse";
    "DOB mismatch vs. request";
    "Scope exceeds authorization" ].

Record CallStep := { q : string; choices : list string; correct : string }.

Definition callSteps : list CallStep :=
  [ {| q := "What should you do first?";
       choices :=
         [ "Verify two identifiers (name + DOB).";
           "Ask what records they want before identifying them.";
           "Put caller on hold immediately." ];
       correct := "Verify two identifiers (name + DOB)." |};
    {| q := "Caller identified as patient’s spouse; what do you confirm next?";
       choices :=
         [ "Authorization on file or signed ROI allowing spouse access.";
           "Insurance group number.";
           "The provider’s NPI." ];
       correct := "Authorization on file or signed ROI allowing spouse access." |};
    {| q := "They want records emailed today. Best response?";
       choices :=
         [ "Confirm scope & delivery method, review ID/authorization, and give timeline following policy.";
           "Say you’ll email anything they want right now.";
           "Decline all requests over the phone." ];
       correct :=
         "Confirm scope & delivery method, review ID/authorization, and give timeline following policy." |} ].

(** The [useMemo] of [codingCases]: the choices of each case are shuffled
    while the array literal is built, then the cases themselves. *)
Definition codingCases_memo (rnd : Rand) (n : nat) : list CodingCase.t * nat :=
  let '(ch1, n1) := shuffle rnd ["99213 + I10"; "99203 + J06.9"; "99214 + E11.9"] n in
  let '(ch2, n2) := shuffle rnd ["99213 + I10"; "99203 + J06.9"; "99212 + Z76.0"] n1 in
  let '(ch3, n3) := shuffle rnd ["99203 + J06.9"; "99213 + I10"; "99204 + J45.909"] n2 in
  let '(ch4, n4) := shuffle rnd ["99203 + J06.9"; "99214 + J06.9"; "99212 + Z20.822"] n3 in
  let base :=
    [ {| CodingCase.id := "A1";
         CodingCase.prompt := "Established pt follow-up for hypertension, stable control.";
         CodingCase.choices := ch1;
         CodingCase.correct := "99213 + I10" |};
      {| CodingCase.id := "A2";
         CodingCase.prompt := "Established pt BP check, med refill; no complicating factors.";
         CodingCase.choices := ch2;
         CodingCase.correct := "99213 + I10" |};
      {| CodingCase.id := "B1";
         CodingCase.prompt := "NEW patient with acute URI, low complexity.";
         CodingCase.choices := ch3;
         CodingCase.correct := "99203 + J06.9" |};
      {| CodingCase.id := "B2";
         CodingCase.prompt := "NEW patient, acute URI symptoms, exam and counseling provided.";
         CodingCase.choices := ch4;
         CodingCase.correct := "99203 + J06.9" |} ] in
  shuffle rnd base n4.

Definition mkRow (i l : string) (d : bool) : ChartRow.t :=
  {| ChartRow.id := i; ChartRow.label := l; ChartRow.isDefect := d |}.

Definition charts_base : list ChartRow.t :=
  [ mkRow "1" "Chart 1 — Signed, dated, correct patient" false;
    mkRow "2" "Chart 2 — Signed, dated, correct patient" false;
    mkRow "3" "Chart 3 — Missing provider signature" true;
    mkRow "4" "Chart 4 — Signed, date present" false;
    mkRow "5" "Chart 5 — DOB mismatch vs. request" true;
    mkRow "6" "Chart 6 — Signed, complete" false;
    mkRow "7" "Chart 7 — Signed, complete" false;
    mkRow "8" "Chart 8 — Signed, complete" false;
    mkRow "9" "Chart 9 — Signed, complete" false;
    mkRow "10" "Chart 10 — Signed, complete" false ].

(** The [useMemo] of [charts]. *)
Definition charts_memo (rnd : Rand) (n : nat) : list ChartRow.t * nat :=
  shuffle rnd charts_base n.

Definition mkPage (i t b : string) : Page.t :=
  {| Page.id := i; Page.title := t; Page.body := b |}.

Definition mkIssue (i p l : string) : Issue.t :=
  {| Issue.id := i; Issue.pageId := p; Issue.label := l |}.

Definition chartDocs : list ChartDoc.t :=
  [ {| ChartDoc.id := "D1";
       ChartDoc.title := "D1 — Progress Note";
       ChartDoc.pages :=
         [ mkPage "p1" "Header"
             ("Patient: Angela Wood  DOB: 07/14/1988" +:+ nl +:+ "MRN: 55421" +:+ nl
              +:+ "Provider: J. Lang, MD" +:+ nl +:+ "Date of Service: 03/02/2025");
           mkPage "p2" "Assessment"
             ("Assessment: Essential Hypertension (I10)" +:+ nl
              +:+ "Plan: Continue current meds");
           mkPage "p3" "Signature" "Signed: __________________  Date: 03/02/2025" ];
       ChartDoc.issues := [ mkIssue "i1" "p3" "Missing provider signature" ] |};
    {| ChartDoc.id := "D2";
       ChartDoc.title := "D2 — ROI Packet";
       ChartDoc.pages :=
         [ mkPage "p1" "Request"
             ("Requester: Spouse" +:+ nl +:+ "Delivery: Email" +:+ nl
              +:+ "Patient: Sam Brooks (DOB: 08/22/1984)");
           mkPage "p2" "Authorization"
             "Authorization allows PCP access only; spouse not listed" ];
       ChartDoc.issues := [ mkIssue "i1" "p2" "No valid authorization for spouse" ] |};
    {| ChartDoc.id := "D3";
       ChartDoc.title := "D3 — Lab Result";
       ChartDoc.pages :=
         [ mkPage "p1" "Header"
             "Patient: L. Chen  DOB: 02/03/1982 (Request DOB: 02/30/1982)";
           mkPage "p2" "Result" "CMP normal" ];
       ChartDoc.issues := [ mkIssue "i1" "p1" "DOB mismatch vs. request" ] |};
    {| ChartDoc.id := "D4";
       ChartDoc.title := "D4 — Imaging Report";
       ChartDoc.pages :=
         [ mkPage "p1" "Header"
             ("Patient: Erin Diaz  DOB: 01/19/1990" +:+ nl +:+ "Signed by: P. Rivera, MD");
           mkPage "p2" "Footer" "No signature date" ];
       ChartDoc.issues := [ mkIssue "i1" "p2" "Missing signature date" ] |};
    {| ChartDoc.id := "D5";
       ChartDoc.title := "D5 — Discharge Summary";
       ChartDoc.pages :=
         [ mkPage "p1" "Header"
             ("Patient: T. Morgan  DOB: 11/11/1975" +:+ nl +:+ "MRN: 77102");
           mkPage "p2" "Attestation"
             "Electronically signed by S. Patel, PA-C 03/08/2025";
           mkPage "p3" "Countersign" "Supervising MD: ________  (not signed)" ];
       ChartDoc.issues :=
         [ mkIssue "i1" "p3" "Missing supervising MD countersignature" ] |} ].

(** The data memoized at mount. *)
Record Env := { codingCases : list CodingCase.t; charts : list ChartRow.t }.

(** Order of the random draws in the first render: [callChoices], then
    [codingCases], then [charts]. *)
Definition mountEnv (rnd : Rand) (n : nat) : Env :=
  let '(_, n0) :=
    shuffle rnd (from_option choices [] (callSteps !! 0)) n in
  let '(cc, n1) := codingCases_memo rnd n0 in
  let '(ch, _) := charts_memo rnd n1 in
  {| codingCases := cc; charts := ch |}.

Record State := {
  callAnswered : bool;
  callComplete : bool;
  codingOpen : bool;
  auditOpen : bool;
  codingDone : bool;
  auditDone : bool;
  callIndex : nat;
  callSelected : option string;
  codingAnswers : gmap string string;
  auditSelected : list string;
  openDoc : option ChartDoc.t;
  docPage : nat;
  pageSelections : gmap string string;
  foundIssues : list string
}.

Definition init : State :=
  {| callAnswered := false; callComplete := false;
     codingOpen := false; auditOpen := false;
     codingDone := false; auditDone := false;
     callIndex := 0; callSelected := None;
     codingAnswers := ∅; auditSelected := [];
     openDoc := None; docPage := 0;
     pageSelections := ∅; foundIssues := [] |}.

(** The state setters [setX(v)]: one field replaced, the others kept. *)
Definition setCallAnswered (v : bool) (st : State) : State :=
  {| callAnswered := v; callComplete := callComplete st;
     codingOpen := codingOpen st; auditOpen := auditOpen st;
     codingDone := codingDone st; auditDone := auditDone st;
     callIndex := callIndex st; callSelected := callSelected st;
     codingAnswers := codingAnswers st; auditSelected := auditSelected st;
     openDoc := openDoc st; docPage := docPage st;
     pageSelections := pageSelections st; foundIssues := foundIssues st |}.

Definition setCallComplete (v : bool) (st : State) : State :=
  {| callAnswered := callAnswered st; callComplete := v;
     codingOpen := codingOpen st; auditOpen := auditOpen st;
     codingDone := codingDone st; auditDone := auditDone st;
     callIndex := callIndex st; callSelected := callSelected st;
     codingAnswers := codingAnswers st; auditSelected := auditSelected st;
     openDoc := openDoc st; docPage := docPage st;
     pageSelections := pageSelections st; foundIssues := foundIssues st |}.

Definition setCodingOpen (v : bool) (st : State) : State :=
  {| callAnswered := callAnswered st; callComplete := callComplete st;
     codingOpen := v; auditOpen := auditOpen st; codingDone := codingDone st;
     auditDone := auditDone st; callIndex := callIndex st;
     callSelected := callSelected st; codingAnswers := codingAnswers st;
     auditSelected := auditSelected st; openDoc := openDoc st;
     docPage := docPage st; pageSelections := pageSelections st;
     foundIssues := foundIssues st |}.

Definition setAuditOpen (v : bool) (st : State) : State :=
  {| callAnswered := callAnswered st; callComplete := callComplete st;
     codingOpen := codingOpen st; auditOpen := v;
     codingDone := codingDone st; auditDone := auditDone st;
     callIndex := callIndex st; callSelected := callSelected st;
     codingAnswers := codingAnswers st; auditSelected := auditSelected st;
     openDoc := openDoc st; docPage := docPage st;
     pageSelections := pageSelections st; foundIssues := foundIssues st |}.

Definition setCodingDone (v : bool) (st : State) : State :=
  {| callAnswered := callAnswered st; callComplete := callComplete st;
     codingOpen := codingOpen st; auditOpen := auditOpen st; codingDone := v;
     auditDone := auditDone st; callIndex := callIndex st;
     callSelected := callSelected st; codingAnswers := codingAnswers st;
     auditSelected := auditSelected st; openDoc := openDoc st;
     docPage := docPage st; pageSelections := pageSelections st;
     foundIssues := foundIssues st |}.

Definition setAuditDone (v : bool) (st : State) : State :=
  {| callAnswered := callAnswered st; callComplete := callComplete st;
     codingOpen := codingOpen st; auditOpen := auditOpen st;
     codingDone := codingDone st; auditDone := v; callIndex := callIndex st;
     callSelected := callSelected st; codingAnswers := codingAnswers st;
     auditSelected := auditSelected st; openDoc := openDoc st;
     docPage := docPage st; pageSelections := pageSelections st;
     foundIssues := foundIssues st |}.

Definition setCallIndex (v : nat) (st : State) : State :=
  {| callAnswered := callAnswered st; callComplete := callComplete st;
     codingOpen := codingOpen st; auditOpen := auditOpen st;
     codingDone := codingDone st; auditDone := auditDone st; callIndex := v;
     callSelected := callSelected st; codingAnswers := codingAnswers st;
     auditSelected := auditSelected st; openDoc := openDoc st;
     docPage := docPage st; pageSelections := pageSelections st;
     foundIssues := foundIssues st |}.

Definition setCallSelected (v : option string) (st : State) : State :=
  {| callAnswered := callAnswered st; callComplete := callComplete st;
     codingOpen := codingOpen st; auditOpen := auditOpen st;
     codingDone := codingDone st; auditDone := auditDone st;
     callIndex := callIndex st; callSelected := v;
     codingAnswers := codingAnswers st; auditSelected := auditSelected st;
     openDoc := openDoc st; docPage := docPage st;
     pageSelections := pageSelections st; foundIssues := foundIssues st |}.

Definition setCodingAnswers (v : gmap string string) (st : State) : State :=
  {| callAnswered := callAnswered st; callComplete := callComplete st;
     codingOpen := codingOpen st; auditOpen := auditOpen st;
     codingDone := codingDone st; auditDone := auditDone st;
     callIndex := callIndex st; callSelected := callSelected st;
     codingAnswers := v; auditSelected := auditSelected st;
     openDoc := openDoc st; docPage := docPage st;
     pageSelections := pageSelections st; foundIssues := foundIssues st |}.

Definition setAuditSelected (v : list string) (st : State) : State :=
  {| callAnswered := callAnswered st; callComplete := callComplete st;
     codingOpen := codingOpen st; auditOpen := auditOpen st;
     codingDone := codingDone st; auditDone := auditDone st;
     callIndex := callIndex st; callSelected := callSelected st;
     codingAnswers := codingAnswers st; auditSelected := v;
     openDoc := openDoc st; docPage := docPage st;
     pageSelections := pageSelections st; foundIssues := foundIssues st |}.

Definition setOpenDoc (v : option ChartDoc.t) (st : State) : State :=
  {| callAnswered := callAnswered st; callComplete := callComplete st;
     codingOpen := codingOpen st; auditOpen := auditOpen st;
     codingDone := codingDone st; auditDone := auditDone st;
     callIndex := callIndex st; callSelected := callSelected st;
     codingAnswers := codingAnswers st; auditSelected := auditSelected st;
     openDoc := v; docPage := docPage st;
     pageSelections := pageSelections st; foundIssues := foundIssues st |}.

Definition setDocPage (v : nat) (st : State) : State :=
  {| callAnswered := callAnswered st; callComplete := callComplete st;
     codingOpen := codingOpen st; auditOpen := auditOpen st;
     codingDone := codingDone st; auditDone := auditDone st;
     callIndex := callIndex st; callSelected := callSelected st;
     codingAnswers := codingAnswers st; auditSelected := auditSelected st;
     openDoc := openDoc st; docPage := v;
     pageSelections := pageSelections st; foundIssues := foundIssues st |}.

Definition setPageSelections (v : gmap string string) (st : State) : State :=
  {| callAnswered := callAnswered st; callComplete := callComplete st;
     codingOpen := codingOpen st; auditOpen := auditOpen st;
     codingDone := codingDone st; auditDone := auditDone st;
     callIndex := callIndex st; callSelected := callSelected st;
     codingAnswers := codingAnswers st; auditSelected := auditSelected st;
     openDoc := openDoc st; docPage := docPage st; pageSelections := v;
     foundIssues := foundIssues st |}.

Definition setFoundIssues (v : list string) (st : State) : State :=
  {| callAnswered := callAnswered st; callComplete := callComplete st;
     codingOpen := codingOpen st; auditOpen := auditOpen st;
     codingDone := codingDone st; auditDone := auditDone st;
     callIndex := callIndex st; callSelected := callSelected st;
     codingAnswers := codingAnswers st; auditSelected := auditSelected st;
     openDoc := openDoc st; docPage := docPage st;
     pageSelections := pageSelections st; foundIssues := v |}.

Definition handleAnswerPhone (st : State) : State := setCallAnswered true st.

(** *** The three-step call *)

(** [submitCall]: nothing without a selection; a wrong answer alerts and
    returns; the right answer moves to the next step and clears the
    selection, or completes the call on the last step.  [callSteps[callIndex]]
    exists in every state the component can reach. *)
Definition submitCall (st : State) : State * list Output :=
  if falsy (callSelected st) then (st, [])
  else
    match callSteps !! callIndex st with
    | None => (st, [])
    | Some callStep =>
        if bool_decide (callSelected st ≠ Some (correct callStep))
        then (st, [Alert "Not quite — try again!"])
        else if callIndex st <? length callSteps - 1
        then (setCallSelected None (setCallIndex (callIndex st + 1) st), [])
        else (setCallComplete true st, [])
    end.

(** *** The coding binder *)

(** [setCodingAnswers((prev) => ({ ...prev, [c.id]: ch }))]. *)
Definition selectCoding (c : CodingCase.t) (ch : string) (st : State) : State :=
  setCodingAnswers (<[CodingCase.id c := ch]> (codingAnswers st)) st.

Definition codingAllCorrect (env : Env) (st : State) : bool :=
  (0 <? length (codingCases env))
  && forallb
       (fun c => bool_decide (codingAnswers st !! CodingCase.id c
                              = Some (CodingCase.correct c)))
       (codingCases env).

(** *** The chart audit *)

Definition toggleAudit (id : string) (st : State) : State :=
  let prev := auditSelected st in
  setAuditSelected
    (if bool_decide (id ∈ prev)
     then filter (fun x => x ≠ id) prev
     else (prev ++ [id])%list)
    st.

(** [charts.filter((c) => auditSelected.includes(c.id))]. *)
Definition picked (env : Env) (st : State) : list ChartRow.t :=
  filter (fun c => ChartRow.id c ∈ auditSelected st) (charts env).

Definition handleAuditCheck (env : Env) (st : State) : State * list Output :=
  let picked := picked env st in
  if negb (length picked =? 2) then
    (st, [Alert "Select exactly TWO charts you believe are defective."])
  else
    let bothCorrect := forallb ChartRow.isDefect picked in
    if negb bothCorrect then
      (st, [Alert "Not quite — review the list and try again!"])
    else if length (foundIssues st) <? 3 then
      (st, [Alert "Nice! Now open a few sample charts below and correctly identify at least 3 page issues."])
    else (setAuditDone true st, []).

(** *** The document viewer *)

(** [`${docId}:${pageId}`]. *)
Definition pageKey (docId pageId : string) : string := docId +:+ ":" +:+ pageId.

(** [openDoc.issues.find((i) => i.pageId === pageId)]. *)
Definition realIssue (d : ChartDoc.t) (pageId : string) : option Issue.t :=
  List.find (fun i => bool_decide (Issue.pageId i = pageId)) (ChartDoc.issues d).

Definition correctValue (d : ChartDoc.t) (pageId : string) : string :=
  match realIssue d pageId with
  | Some i => ChartDoc.id d +:+ ":" +:+ Issue.id i
  | None => ChartDoc.id d +:+ ":" +:+ pageId +:+ ":none"
  end.

(** [shuffle(DISTRACTOR_POOL.filter((l) => l !== realIssue?.label))[0]
     || "Scope exceeds authorization"], drawn anew at every render. *)
Definition distractorLabel (rnd : Rand) (n : nat) (d : ChartDoc.t) (pageId : string)
  : string :=
  let pool :=
    filter (fun l => Some l ≠ Issue.label <$> realIssue d pageId) DISTRACTOR_POOL in
  match (shuffle rnd pool n).1 !! 0 with
  | Some l => if bool_decide (l = "") then "Scope exceeds authorization" else l
  | None => "Scope exceeds authorization"
  end.

Definition noIssuesOption (d : ChartDoc.t) (pageId : string) : DocOption.t :=
  {| DocOption.label := "No issues on this page";
     DocOption.value := ChartDoc.id d +:+ ":" +:+ pageId +:+ ":none" |}.

Definition fakeOption (d : ChartDoc.t) (pageId lbl : string) : DocOption.t :=
  {| DocOption.label := lbl;
     DocOption.value := ChartDoc.id d +:+ ":" +:+ pageId +:+ ":fake" |}.

Definition realOption (d : ChartDoc.t) (pageId : string) : option DocOption.t :=
  match realIssue d pageId with
  | Some i => Some {| DocOption.label := Issue.label i;
                      DocOption.value := ChartDoc.id d +:+ ":" +:+ Issue.id i |}
  | None => None
  end.

(** The three radios of a page before they are shuffled for display;
    [lbl] is the distractor label drawn for this render. *)
Definition baseOptions (d : ChartDoc.t) (pageId lbl : string) : list DocOption.t :=
  match realOption d pageId with
  | Some r => [ noIssuesOption d pageId; r; fakeOption d pageId lbl ]
  | None =>
      [ noIssuesOption d pageId; fakeOption d pageId lbl;
        {| DocOption.label := "Wrong MRN";
           DocOption.value := ChartDoc.id d +:+ ":" +:+ pageId +:+ ":fake2" |} ]
  end.

(** The radio [onChange] of the page [pageId] of document [d]: the pick
    is stored, the page's key is taken out of [foundIssues] and put back
    only when the pick is the correct value. *)
Definition selectOption (d : ChartDoc.t) (pageId : string) (opt : DocOption.t)
    (st : State) : State :=
  let key := pageKey (ChartDoc.id d) pageId in
  let withoutThisPage := filter (fun k => k ≠ key) (foundIssues st) in
  setFoundIssues
    (if bool_decide (DocOption.value opt = correctValue d pageId)
     then (withoutThisPage ++ [key])%list
     else withoutThisPage)
    (setPageSelections (<[key := DocOption.value opt]> (pageSelections st)) st).

(** *** Effects and the room gate *)

Definition allTasksDone (st : State) : bool :=
  callComplete st && codingDone st && auditDone st.

(** [useEffect(() => { if (codingAllCorrect && codingOpen) setCodingDone(true) })].
    The effect depends only on its two dependencies and only ever sets the
    flag, so running it after every event gives the same states as running
    it when a dependency changed. *)
Definition effects (env : Env) (st : State) : State :=
  if codingAllCorrect env st && codingOpen st then setCodingDone true st else st.

(** The learner's actions.  Rows, cases, documents and radios are named
    by their position in the rendered list. *)
Inductive Action :=
| ClickPhone
| SelectCall (c : string)
| ClickContinue
| ClickBinder
| CloseBinder
| SelectCoding (i : nat) (ch : string)
| ClickCabinet
| CloseAudit
| ToggleChart (i : nat)
| OpenDoc (i : nat)
| ClickSubmitSelection
| CloseDoc
| ClickPrev
| ClickNext
| SelectIssue (lbl : string) (k : nat).

Definition dispatch (env : Env) (st : State) (a : Action) : State * list Output :=
  match a with
  | ClickPhone =>
      if negb (callAnswered st) then (handleAnswerPhone st, []) else (st, [])
  | SelectCall c =>
      if callAnswered st && negb (callComplete st) then
        match callSteps !! callIndex st with
        | Some callStep =>
            if bool_decide (c ∈ choices callStep)
            then (setCallSelected (Some c) st, []) else (st, [])
        | None => (st, [])
        end
      else (st, [])
  | ClickContinue =>
      if callAnswered st && negb (callComplete st) then submitCall st else (st, [])
  | ClickBinder =>
      if callComplete st then (setCodingOpen true st, []) else (st, [])
  | CloseBinder =>
      if codingOpen st then (setCodingOpen false st, []) else (st, [])
  | SelectCoding i ch =>
      if codingOpen st then
        match codingCases env !! i with
        | Some c =>
            if bool_decide (ch ∈ CodingCase.choices c)
            then (selectCoding c ch st, []) else (st, [])
        | None => (st, [])
        end
      else (st, [])
  | ClickCabinet =>
      if callComplete st then (setAuditOpen true st, []) else (st, [])
  | CloseAudit =>
      if auditOpen st then (setAuditOpen false st, []) else (st, [])
  | ToggleChart i =>
      if auditOpen st then
        match charts env !! i with
        | Some row => (toggleAudit (ChartRow.id row) st, [])
        | None => (st, [])
        end
      else (st, [])
  | OpenDoc i =>
      if auditOpen st then
        match chartDocs !! i with
        | Some d => (setDocPage 0 (setOpenDoc (Some d) st), [])
        | None => (st, [])
        end
      else (st, [])
  | ClickSubmitSelection =>
      if auditOpen st && negb (auditDone st) then handleAuditCheck env st
      else (st, [])
  | CloseDoc =>
      match openDoc st with
      | Some _ => (setOpenDoc None st, [])
      | None => (st, [])
      end
  | ClickPrev =>
      match openDoc st with
      | Some _ =>
          if docPage st =? 0 then (st, [])
          else (setDocPage (Nat.max 0 (docPage st - 1)) st, [])
      | None => (st, [])
      end
  | ClickNext =>
      match openDoc st with
      | Some d =>
          if docPage st =? length (ChartDoc.pages d) - 1 then (st, [])
          else (setDocPage (Nat.min (length (ChartDoc.pages d) - 1) (docPage st + 1)) st, [])
      | None => (st, [])
      end
  | SelectIssue lbl k =>
      match openDoc st with
      | Some d =>
          match ChartDoc.pages d !! docPage st with
          | Some p =>
              match baseOptions d (Page.id p) lbl !! k with
              | Some opt => (selectOption d (Page.id p) opt st, [])
              | None => (st, [])
              end
          | None => (st, [])
          end
      | None => (st, [])
      end
  end.

(** One event: the handler, then the effects of the re-render; [onFinish]
    is called (after its 700 ms timer) when [allTasksDone] turns true. *)
Definition step (env : Env) (st : State) (a : Action) : State * list Output :=
  let '(st1, out) := dispatch env st a in
  let st2 := effects env st1 in
  (st2,
   (out ++ if allTasksDone st2 && negb (allTasksDone st)
           then [Invoke onFinish []] else [])%list).

Fixpoint run (env : Env) (st : State) (acts : list Action) : State * list Output :=
  match acts with
  | [] => (st, [])
  | a :: acts' =>
      let '(st1, out1) := step env st a in
      let '(st2, out2) := run env st1 acts' in
      (st2, (out1 ++ out2)%list)
  end.

(** The states the component can be in. *)
Definition reachable (env : Env) (st : State) : Prop :=
  exists acts, (run env init acts).1 = st.

End Room.

(* ===================================================================== *)
(** ** [Certificate] and [App] *)
(* ===================================================================== *)

Module Certificate.
Import JS.

Record State := { name : string }.

Definition init : State := {| name := "" |}.

Inductive Action :=
| TypeName (v : string)      (* [onChange={(e) => setName(e.target.value)}] *)
| ClickFinish.

(** The Finish button is [disabled={!name.trim()}]; its [onClick] is the
    prop [onDone] itself, which React calls with the click event. *)
Definition dispatch (st : State) (a : Action) : State * list Output :=
  match a with
  | TypeName v => ({| name := v |}, [])
  | ClickFinish =>
      if falsy (Some (trim (name st))) then (st, [])
      else (st, [Invoke onDone [VClickEvent]])
  end.

End Certificate.

Module App.
Import JS.

Inductive Stage := quiz | room | certificate | done.

Record State := { stage : Stage; score : nat }.

Definition init : State := {| stage := quiz; score := 0 |}.

(** Both copies of [App] in the sources behave alike.  The three
    closures of [App]:
    [(finalScore) => { setScore(finalScore); setStage("room") }],
    [() => setStage("certificate")] and [() => setStage("done")].  Each
    sets its stage whatever the current one is; [Quiz] always calls
    [onComplete] with its numeric score. *)
Definition handle (st : State) (f : Callback) (args : list Value) : State :=
  match f with
  | onComplete =>
      match args with
      | VNumber finalScore :: _ => {| stage := room; score := finalScore |}
      | _ => {| stage := room; score := score st |}
      end
  | onFinish => {| stage := certificate; score := score st |}
  | onDone => {| stage := done; score := score st |}
  end.

(** The callback [App] hands to the component it renders in a stage:
    [Quiz] gets [onComplete], [DoctorOfficeRoom] gets [onFinish],
    [Certificate] gets [onDone], and the end screen gets none. *)
Definition passed (s : Stage) : option Callback :=
  match s with
  | quiz => Some onComplete
  | room => Some onFinish
  | certificate => Some onDone
  | done => None
  end.

End App.

(* ===================================================================== *)
(** ** Sample inputs *)
(* ===================================================================== *)

(** The source whose every draw is 0.99: each [j] equals [i]. *)
Definition always_last : JS.Rand := fun _ => (99 # 100)%Q.

(* ===================================================================== *)
(** ** Invariants and observations used in the statements *)
(* ===================================================================== *)

(** The quiz never goes past the summary page, and is on it only with
    the order solved. *)
Definition quiz_inv (st : Quiz.State) : Prop :=
  Quiz.step st <= 5 /\ (Quiz.step st = 5 -> Quiz.order st = Quiz.CORRECT_ORDER).

(** Number of submitted answers that are the designated answer of their
    question. *)
Definition correct_count (subs : list (nat * string)) : nat :=
  length (List.filter Quiz.answered_correctly subs).

(** The ids of the rendered chart rows, and the ids of the defective ones. *)
Definition chart_ids (env : Room.Env) : list string :=
  ChartRow.id <$> Room.charts env.

Definition defective_ids (env : Room.Env) : gset string :=
  list_to_set (ChartRow.id <$> filter (fun c => ChartRow.isDefect c = true) (Room.charts env)).

(** Every page of every sample document, with its document. *)
Definition all_pages : list (ChartDoc.t * Page.t) :=
  d ← Room.chartDocs; (fun p => (d, p)) <$> ChartDoc.pages d.

Definition key_of (dp : ChartDoc.t * Page.t) : string :=
  Room.pageKey (ChartDoc.id dp.1) (Page.id dp.2).

(** The learner's latest pick on a page is the page's correct value. *)
Definition judged_correct (st : Room.State) (dp : ChartDoc.t * Page.t) : Prop :=
  Room.pageSelections st !! key_of dp = Some (Room.correctValue dp.1 (Page.id dp.2)).

#[global] Instance judged_correct_dec st dp : Decision (judged_correct st dp).
Proof. unfold judged_correct. apply _. Defined.

(** Number of pages, over all documents, whose latest pick is correct. *)
Definition pages_judged_correct (st : Room.State) : nat :=
  length (filter (judged_correct st) all_pages).

(** What holds in every state of the room. *)
Record room_inv (env : Room.Env) (st : Room.State) : Prop := {
  inv_sel_nodup : NoDup (Room.auditSelected st);
  inv_sel_ids : forall id, id ∈ Room.auditSelected st -> id ∈ chart_ids env;
  inv_found_nodup : NoDup (Room.foundIssues st);
  inv_found_pages :
    forall k, k ∈ Room.foundIssues st -> exists dp, dp ∈ all_pages /\ k = key_of dp;
  inv_found_correct :
    forall dp, dp ∈ all_pages ->
      (key_of dp ∈ Room.foundIssues st <-> judged_correct st dp);
  inv_open : forall d, Room.openDoc st = Some d -> d ∈ Room.chartDocs;
  inv_coding :
    Room.codingAllCorrect env st = true -> Room.codingDone st = true
}.

(** The memoized data with every shuffle leaving its input in place. *)
Definition env_unshuffled : Room.Env := Room.mountEnv always_last 0.

(** The room with the audit open and document D1 on its first page. *)
Definition room_viewing_D1 : Room.State :=
  (Room.run env_unshuffled Room.init
     [ Room.ClickPhone;
       Room.SelectCall "Verify two identifiers (name + DOB).";
       Room.ClickContinue;
       Room.SelectCall "Authorization on file or signed ROI allowing spouse access.";
       Room.ClickContinue;
       Room.SelectCall "Confirm scope & delivery method, review ID/authorization, and give timeline following policy.";
       Room.ClickContinue;
       Room.ClickCabinet;
       Room.OpenDoc 0 ]).1.

(** The three alerts of [handleAuditCheck]. *)
Definition alert_count : Output :=
  Alert "Select exactly TWO charts you believe are defective.".
Definition alert_not_quite : Output :=
  Alert "Not quite — review the list and try again!".
Definition alert_pages : Output :=
  Alert "Nice! Now open a few sample charts below and correctly identify at least 3 page issues.".

(** The learner's selection of charts, as a set. *)
Definition selected_set (st : Room.State) : gset string :=
  list_to_set (Room.auditSelected st).

(** The actions that take the call to its end and open the audit. *)
Definition call_then_cabinet : list Room.Action :=
  [ Room.ClickPhone;
    Room.SelectCall "Verify two identifiers (name + DOB).";
    Room.ClickContinue;
    Room.SelectCall "Authorization on file or signed ROI allowing spouse access.";
    Room.ClickContinue;
    Room.SelectCall "Confirm scope & delivery method, review ID/authorization, and give timeline following policy.";
    Room.ClickContinue;
    Room.ClickCabinet ].

(** Chart 5 ticked, then chart 3; no page judged yet. *)
Definition room_picked_5_3 : Room.State :=
  (Room.run env_unshuffled Room.init
     (call_then_cabinet ++ [Room.ToggleChart 4; Room.ToggleChart 2])).1.

(** Chart 3 ticked, then chart 5; the three pages of D1 judged correctly. *)
Definition room_audit_ready : Room.State :=
  (Room.run env_unshuffled Room.init
     (call_then_cabinet
      ++ [ Room.ToggleChart 2; Room.ToggleChart 4; Room.OpenDoc 0;
           Room.SelectIssue "Wrong MRN" 0; Room.ClickNext;
           Room.SelectIssue "Wrong MRN" 0; Room.ClickNext;
           Room.SelectIssue "Wrong MRN" 1 ])).1.

(** The call taken to its end. *)
Definition call_actions : list Room.Action :=
  [ Room.ClickPhone;
    Room.SelectCall "Verify two identifiers (name + DOB).";
    Room.ClickContinue;
    Room.SelectCall "Authorization on file or signed ROI allowing spouse access.";
    Room.ClickContinue;
    Room.SelectCall "Confirm scope & delivery method, review ID/authorization, and give timeline following policy.";
    Room.ClickContinue ].

(** The binder opened and its four cases answered correctly. *)
Definition binder_solved : list Room.Action :=
  (call_actions
   ++ [ Room.ClickBinder;
        Room.SelectCoding 0 "99213 + I10";
        Room.SelectCoding 1 "99213 + I10";
        Room.SelectCoding 2 "99203 + J06.9";
        Room.SelectCoding 3 "99203 + J06.9" ])%list.

(** ... and then the first case re-answered wrongly. *)
Definition binder_solved_then_wrong : list Room.Action :=
  (binder_solved ++ [ Room.SelectCoding 0 "99203 + J06.9" ])%list.

(* ===================================================================== *)
(** ** Further parts of the components *)
(* ===================================================================== *)

(** [shuffledChoices] of [Quiz]: the choices of the visible question in a
    fresh random order, and the empty list past the questions. *)
Definition shuffledChoices (rnd : JS.Rand) (n : nat) (step : nat)
  : list string * nat :=
  match Quiz.MCQS !! step with
  | Some m => JS.shuffle rnd (Quiz.choices m) n
  | None => ([], n)
  end.

(** [callChoices] of the room: the choices of the current call step,
    shuffled when [callIndex] changes. *)
Definition callChoices (rnd : JS.Rand) (n : nat) (st : Room.State)
  : list string * nat :=
  match Room.callSteps !! Room.callIndex st with
  | Some callStep => JS.shuffle rnd (Room.choices callStep) n
  | None => ([], n)
  end.

(** The clicks on the "down" arrows at the given positions, in turn. *)
Definition clicks_down (idxs : list nat) : list Quiz.Action :=
  Quiz.ClickDown <$> idxs.

(** Position of a stage in [Quiz -> Room -> Certificate -> Done]. *)
Definition stage_rank (s : App.Stage) : nat :=
  match s with
  | App.quiz => 0
  | App.room => 1
  | App.certificate => 2
  | App.done => 3
  end.

#[global] Instance Value_eq_dec : EqDecision JS.Value.
Proof. solve_decision. Defined.

#[global] Instance Callback_eq_dec : EqDecision Callback.
Proof. solve_decision. Defined.

#[global] Instance Output_eq_dec : EqDecision Output.
Proof. solve_decision. Defined.

(** Number of calls of [onFinish] among the outputs of a run. *)
Definition finish_calls (out : list Output) : nat :=
  length (filter (fun o => o = Invoke onFinish []) out).

(** The order after "down" is applied at the given positions, in turn. *)
Definition apply_down (l : list string) (idxs : list nat) : list string :=
  foldl (fun a i => JS.swap a i (i + 1)) l idxs.

(** How far the room has got: what holds of the call, of the tasks locked
    behind it and of the open document in every state. *)
Record room_flow (st : Room.State) : Prop := {
  flow_index : Room.callIndex st < 3;
  flow_unanswered :
    Room.callAnswered st = false ->
    Room.callIndex st = 0 /\ Room.callSelected st = None
    /\ Room.callComplete st = false;
  flow_selected :
    forall c, Room.callSelected st = Some c ->
      exists cs, Room.callSteps !! Room.callIndex st = Some cs
                 /\ c ∈ Room.choices cs;
  flow_complete :
    Room.callComplete st = true ->
    Room.callIndex st = 2
    /\ exists cs, Room.callSteps !! 2 = Some cs
                  /\ Room.callSelected st = Some (Room.correct cs);
  flow_locked :
    Room.callComplete st = false ->
    Room.codingOpen st = false /\ Room.auditOpen st = false
    /\ Room.codingDone st = false /\ Room.auditDone st = false
    /\ Room.codingAnswers st = ∅ /\ Room.auditSelected st = []
    /\ Room.openDoc st = None
    /\ Room.pageSelections st = ∅ /\ Room.foundIssues st = [];
  flow_page :
    forall d, Room.openDoc st = Some d ->
      d ∈ Room.chartDocs /\ Room.docPage st < length (ChartDoc.pages d)
}.

(** The actions on the binder, the audit and the document viewer: the
    tasks behind the phone call. *)
Definition post_call_action (a : Room.Action) : bool :=
  match a with
  | Room.ClickPhone | Room.SelectCall _ | Room.ClickContinue => false
  | _ => true
  end.

(** [App] fed a sequence of callback calls. *)
Definition app_run (st : App.State) (evs : list (Callback * list JS.Value))
  : App.State :=
  foldl (fun s e => App.handle s e.1 e.2) st evs.

(** Every call of the sequence goes through the callback handed to the
    component that is rendered when the call is made. *)
Fixpoint staged (st : App.State) (evs : list (Callback * list JS.Value)) : Prop :=
  match evs with
  | [] => True
  | e :: evs' =>
      App.passed (App.stage st) = Some e.1
      /\ staged (App.handle st e.1 e.2) evs'
  end.

(** The handlers alone applied in turn, without the effects. *)
Definition dispatch_all (env : Room.Env) (st : Room.State)
    (acts : list Room.Action) : Room.State :=
  foldl (fun s a => (Room.dispatch env s a).1) st acts.

(** The binder stays closed all along the given actions. *)
Fixpoint stays_closed (env : Room.Env) (st : Room.State)
    (acts : list Room.Action) : bool :=
  match acts with
  | [] => true
  | a :: acts' =>
      negb (Room.codingOpen (Room.dispatch env st a).1)
      && stays_closed env (Room.dispatch env st a).1 acts'
  end.

(** The correct choice clicked for each case, from position [k] on. *)
Fixpoint binder_clicks (cases : list CodingCase.t) (k : nat) : list Room.Action :=
  match cases with
  | [] => []
  | c :: rest => Room.SelectCoding k (CodingCase.correct c) :: binder_clicks rest (S k)
  end.

(** The three pages of D1 judged correctly. *)
Definition judge_D1 : list Room.Action :=
  [ Room.OpenDoc 0;
    Room.SelectIssue "" 0; Room.ClickNext;
    Room.SelectIssue "" 0; Room.ClickNext;
    Room.SelectIssue "" 1 ].

(** A session that completes the room when rows [i3] and [i5] of the
    shuffled list are charts 3 and 5: the call, the audit, the binder. *)
Definition winning_actions (env : Room.Env) (i3 i5 : nat) : list Room.Action :=
  ((call_actions ++ [Room.ClickCabinet])
   ++ [Room.ToggleChart i3; Room.ToggleChart i5]
   ++ judge_D1
   ++ [Room.ClickSubmitSelection; Room.ClickBinder]
   ++ binder_clicks (Room.codingCases env) 0)%list.

(* ===================================================================== *)
(** * Properties *)
(* ===================================================================== *)

(** ** [JSON.stringify] keeps arrays of strings apart *)

Lemma append_nil (r : string) : "" +:+ r = r.
Proof. reflexivity. Qed.

Lemma append_cons (c : ascii) (s r : string) :
  String c s +:+ r = String c (s +:+ r).
Proof. reflexivity. Qed.

Lemma append_assoc (s1 s2 s3 : string) :
  (s1 +:+ s2) +:+ s3 = s1 +:+ (s2 +:+ s3).
Proof.
  induction s1 as [|c s1 IH]; [reflexivity|].
  rewrite !append_cons. f_equal. exact IH.
Qed.

Lemma unescape_escape_char (c : ascii) (r : string) :
  JS.unescape_char (JS.escape_char c +:+ r) = Some (c, r).
Proof. destruct c as [[] [] [] [] [] [] [] []]; reflexivity. Qed.

Lemma unescape_closing_quote (r : string) :
  JS.unescape_char (String JS.DQUOTE r) = None.
Proof. reflexivity. Qed.

Lemma escape_inj (s1 : string) :
  forall s2 r1 r2,
    JS.escape s1 +:+ String JS.DQUOTE r1 = JS.escape s2 +:+ String JS.DQUOTE r2 ->
    s1 = s2 /\ r1 = r2.
Proof.
  induction s1 as [|c1 s1 IH]; intros [|c2 s2] r1 r2 H; simpl in H;
    rewrite ?append_nil, ?append_assoc in H.
  - injection H as ->. auto.
  - apply (f_equal JS.unescape_char) in H.
    rewrite unescape_escape_char, unescape_closing_quote in H. discriminate.
  - apply (f_equal JS.unescape_char) in H.
    rewrite unescape_escape_char, unescape_closing_quote in H. discriminate.
  - apply (f_equal JS.unescape_char) in H.
    rewrite !unescape_escape_char in H. injection H as -> H.
    destruct (IH _ _ _ H) as [-> ->]. auto.
Qed.

Lemma quote_app (x r : string) :
  JS.quote x +:+ r = String JS.DQUOTE (JS.escape x +:+ String JS.DQUOTE r).
Proof.
  unfold JS.quote. rewrite append_cons, append_assoc, append_cons, append_nil.
  reflexivity.
Qed.

Lemma stringify_rest_inj (l1 : list string) :
  forall l2, JS.stringify_rest l1 = JS.stringify_rest l2 -> l1 = l2.
Proof.
  induction l1 as [|x l1 IH]; intros [|y l2] H; simpl in H;
    rewrite ?append_cons, ?append_nil in H;
    try reflexivity; try discriminate.
  injection H as H. rewrite !append_assoc, !append_cons, !append_nil in H.
  apply escape_inj in H as [-> H]. f_equal. auto.
Qed.

Lemma JSON_stringify_inj (l1 l2 : list string) :
  JS.JSON_stringify l1 = JS.JSON_stringify l2 -> l1 = l2.
Proof.
  destruct l1 as [|x l1], l2 as [|y l2]; simpl; intros H;
    rewrite ?append_cons, ?append_nil, ?quote_app in H;
    try reflexivity; try discriminate.
  injection H as H. apply escape_inj in H as [-> H].
  f_equal. now apply stringify_rest_inj.
Qed.

(** ** [shuffle] permutes, and draws indices in range *)

Lemma swap_perm {T} (a : list T) (x y : nat) : JS.swap a x y ≡ₚ a.
Proof.
  unfold JS.swap.
  destruct (a !! y) as [ay|] eqn:Hy; [|reflexivity].
  destruct (a !! x) as [ax|] eqn:Hx; [|reflexivity].
  now apply Permutation_insert_swap.
Qed.

Lemma shuffle_loop_perm {T} (rnd : JS.Rand) (i : nat) :
  forall (a : list T) n, (JS.shuffle_loop rnd i a n).1 ≡ₚ a.
Proof.
  induction i as [|i IH]; intros a n; simpl; [reflexivity|].
  rewrite IH. apply swap_perm.
Qed.

Lemma shuffle_perm {T} (rnd : JS.Rand) (a : list T) (n : nat) :
  (JS.shuffle rnd a n).1 ≡ₚ a.
Proof. apply shuffle_loop_perm. Qed.

Lemma random_index_le (rnd : JS.Rand) (n i : nat) :
  JS.fair rnd -> JS.random_index rnd n i <= i.
Proof.
  intros Hf. destruct (Hf n) as [H0 H1]. unfold JS.random_index.
  set (K := Z.of_nat (i + 1)).
  assert (Hk : (0 < inject_Z K)%Q).
  { replace 0%Q with (inject_Z 0) by reflexivity. rewrite <- Zlt_Qlt. lia. }
  assert (Hlt : (rnd n * inject_Z K < 1 * inject_Z K)%Q)
    by (apply Qmult_lt_compat_r; assumption).
  rewrite Qmult_1_l in Hlt.
  pose proof (Qle_lt_trans _ _ _ (Qfloor_le (rnd n * inject_Z K)) Hlt) as Hfl.
  rewrite <- Zlt_Qlt in Hfl. lia.
Qed.

(** ** The reorder task *)

Lemma isOrderCorrect_spec (st : Quiz.State) :
  Quiz.isOrderCorrect st = true <-> Quiz.order st = Quiz.CORRECT_ORDER.
Proof.
  unfold Quiz.isOrderCorrect. rewrite bool_decide_eq_true. split.
  - apply JSON_stringify_inj.
  - now intros ->.
Qed.

Lemma isOrderCorrect_false (st : Quiz.State) :
  Quiz.isOrderCorrect st = false <-> Quiz.order st <> Quiz.CORRECT_ORDER.
Proof.
  rewrite <- isOrderCorrect_spec. destruct (Quiz.isOrderCorrect st); split; congruence.
Qed.

Lemma always_last_fair : JS.fair always_last.
Proof. intros n. unfold always_last. split; reflexivity || discriminate. Qed.

Example shuffle_always_last :
  JS.shuffle always_last Quiz.CORRECT_ORDER 0 = (Quiz.CORRECT_ORDER, 4).
Proof. vm_compute. reflexivity. Qed.

Example JSON_stringify_sample :
  JS.JSON_stringify ["a"; "b\c"]
  = String "[" (String JS.DQUOTE ("a" +:+ String JS.DQUOTE
      ("," +:+ String JS.DQUOTE ("b\\c" +:+ String JS.DQUOTE "]")))).
Proof. vm_compute. reflexivity. Qed.

(** C1, at the failing input: with the fair source [always_last] both
    shuffles of [randomizedStart] return [CORRECT_ORDER], so the reorder
    page opens on the correct order and "Finish Quiz" is enabled at once. *)
Theorem C1_randomizedStart_can_be_correct :
  JS.fair always_last
  /\ (Quiz.randomizedStart always_last 0).1 = Quiz.CORRECT_ORDER
  /\ Quiz.isOrderCorrect (Quiz.mount always_last 0) = true.
Proof.
  split; [exact always_last_fair|]. split; vm_compute; reflexivity.
Qed.

(** C9: the order check passes exactly when the working sequence equals
    [CORRECT_ORDER], position by position; exchanging two different
    positions of [CORRECT_ORDER] fails it; and [submitReorder] reaches the
    summary page exactly when the check holds, leaving the state untouched
    otherwise. *)
Theorem C9_order_check_exact :
  (forall st : Quiz.State,
      Quiz.isOrderCorrect st = true
      <-> forall i : nat, Quiz.order st !! i = Quiz.CORRECT_ORDER !! i)
  /\ (forall (score : nat) (sel : option string) (i j : nat) (ci cj : string),
        i <> j ->
        Quiz.CORRECT_ORDER !! i = Some ci ->
        Quiz.CORRECT_ORDER !! j = Some cj ->
        Quiz.isOrderCorrect
          {| Quiz.step := 4; Quiz.score := score; Quiz.selected := sel;
             Quiz.order := <[i := cj]> (<[j := ci]> Quiz.CORRECT_ORDER) |}
        = false)
  /\ (forall st : Quiz.State,
        (Quiz.order st = Quiz.CORRECT_ORDER ->
         Quiz.submitReorder st
         = {| Quiz.step := 5; Quiz.score := Quiz.score st;
              Quiz.selected := Quiz.selected st; Quiz.order := Quiz.order st |})
        /\ (Quiz.order st <> Quiz.CORRECT_ORDER -> Quiz.submitReorder st = st)).
Proof.
  split; [|split].
  - intros st. rewrite isOrderCorrect_spec. split.
    + now intros ->.
    + intros H. now apply list_eq.
  - intros score sel i j ci cj Hij Hi Hj.
    apply isOrderCorrect_false. simpl.
    assert (i < 5) by (apply lookup_lt_Some in Hi; exact Hi).
    assert (j < 5) by (apply lookup_lt_Some in Hj; exact Hj).
    destruct i as [|[|[|[|[|]]]]]; try lia;
      destruct j as [|[|[|[|[|]]]]]; try lia; try congruence;
      injection Hi as <-; injection Hj as <-; vm_compute; discriminate.
  - intros st. unfold Quiz.submitReorder. split; intros H.
    + apply isOrderCorrect_spec in H. now rewrite H.
    + apply isOrderCorrect_false in H. now rewrite H.
Qed.

Lemma C9_order_check_exact_witness :
  Quiz.isOrderCorrect
    {| Quiz.step := 4; Quiz.score := 2; Quiz.selected := None;
       Quiz.order :=
         <[0 := "Confirm authorization/permission is valid."]>
           (<[1 := "Verify patient identity (two identifiers)."]> Quiz.CORRECT_ORDER) |}
  = false
  /\ Quiz.submitReorder (Quiz.init Quiz.CORRECT_ORDER)
     = {| Quiz.step := 5; Quiz.score := 0; Quiz.selected := None;
          Quiz.order := Quiz.CORRECT_ORDER |}.
Proof.
  destruct C9_order_check_exact as (_ & Hswap & Hsub). split.
  - apply (Hswap 2 None 0 1); [lia | reflexivity | reflexivity].
  - apply (Hsub (Quiz.init Quiz.CORRECT_ORDER)). reflexivity.
Defined.

(** ** Quiz scoring *)

Lemma quiz_inv_init (start : list string) : quiz_inv (Quiz.init start).
Proof. split; simpl; [lia | discriminate]. Qed.

Lemma correct_count_app (l1 l2 : list (nat * string)) :
  correct_count (l1 ++ l2) = correct_count l1 + correct_count l2.
Proof. unfold correct_count. now rewrite List.filter_app, length_app. Qed.

(** What one event does to the quiz. *)
Lemma quiz_dispatch (st : Quiz.State) (a : Quiz.Action) :
  quiz_inv st ->
  let st1 := (Quiz.dispatch st a).1 in
  let o := (Quiz.dispatch st a).2 in
  let sub := Quiz.submissions st [a] in
  quiz_inv st1
  /\ Quiz.score st1 = Quiz.score st + correct_count sub
  /\ sub.*1 = seq (Nat.min (Quiz.step st) 4)
                  (Nat.min (Quiz.step st1) 4 - Nat.min (Quiz.step st) 4)
  /\ Quiz.step st <= Quiz.step st1
  /\ (Quiz.step st = 5 -> st1 = st)
  /\ (o = [] \/ (o = [Invoke onComplete [JS.VNumber (Quiz.score st)]]
                 /\ Quiz.step st = 5)).
Proof.
  intros [Hle H5]. destruct st as [s sc sel ord]. simpl in Hle, H5.
  destruct s as [|[|[|[|[|[|s]]]]]]; [| | | | | |lia];
    destruct a; cbn -[Quiz.CORRECT_ORDER Quiz.isOrderCorrect];
    unfold quiz_inv, Quiz.submitMCQ, Quiz.moveUp, Quiz.moveDown,
      Quiz.submitReorder, correct_count, Quiz.answered_correctly;
    cbn -[Quiz.CORRECT_ORDER Quiz.isOrderCorrect];
    repeat match goal with
      | |- context [bool_decide ?P] => destruct (bool_decide P) eqn:?
      | |- context [match ?x with Some _ => _ | None => _ end] => destruct x eqn:?
      | |- context [if ?b then _ else _] => destruct b eqn:?
      end;
    cbn -[Quiz.CORRECT_ORDER Quiz.isOrderCorrect];
    repeat split; try lia; try discriminate; try (intros; congruence);
    auto.
  all: try (intros _; match goal with
            | H : Quiz.isOrderCorrect _ = true |- _ =>
                apply isOrderCorrect_spec in H; exact H
            end).
  all: match goal with H : bool_decide _ = _ |- _ => rewrite H end;
    simpl; lia.
Qed.

Lemma submissions_cons (st : Quiz.State) (a : Quiz.Action) (acts : list Quiz.Action) :
  Quiz.submissions st (a :: acts)
  = (Quiz.submissions st [a] ++ Quiz.submissions (Quiz.dispatch st a).1 acts)%list.
Proof.
  simpl. destruct a; try reflexivity.
  destruct (Quiz.selected st); [|reflexivity].
  destruct (Quiz.step st <=? 3); reflexivity.
Qed.

Lemma run_cons (st : Quiz.State) (a : Quiz.Action) (acts : list Quiz.Action) :
  Quiz.run st (a :: acts)
  = ((Quiz.run (Quiz.dispatch st a).1 acts).1,
     ((Quiz.dispatch st a).2 ++ (Quiz.run (Quiz.dispatch st a).1 acts).2)%list).
Proof.
  simpl. destruct (Quiz.dispatch st a) as [st1 o1]. simpl.
  destruct (Quiz.run st1 acts) as [st2 o2]. reflexivity.
Qed.

(** What a whole run does to the quiz, from any state of the invariant. *)
Lemma quiz_run (acts : list Quiz.Action) :
  forall st0 : Quiz.State,
    quiz_inv st0 ->
    let st := (Quiz.run st0 acts).1 in
    let out := (Quiz.run st0 acts).2 in
    let subs := Quiz.submissions st0 acts in
    quiz_inv st
    /\ Quiz.score st = Quiz.score st0 + correct_count subs
    /\ subs.*1 = seq (Nat.min (Quiz.step st0) 4)
                     (Nat.min (Quiz.step st) 4 - Nat.min (Quiz.step st0) 4)
    /\ Quiz.step st0 <= Quiz.step st
    /\ (Quiz.step st0 = 5 -> st = st0)
    /\ (forall f args, Invoke f args ∈ out ->
          f = onComplete /\ args = [JS.VNumber (Quiz.score st)]
          /\ Quiz.step st = 5).
Proof.
  induction acts as [|a acts IH]; intros st0 Hinv.
  - cbn [Quiz.run Quiz.submissions fst snd].
    split; [exact Hinv|]. split; [unfold correct_count; simpl; lia|].
    split; [|split; [lia|split; [auto|]]].
    + match goal with |- _ = seq _ ?n => replace n with 0 by lia end. reflexivity.
    + intros f args Hin. inversion Hin.
  - rewrite run_cons, submissions_cons. cbn [fst snd].
    destruct (quiz_dispatch st0 a Hinv) as (Hinv1 & Hsc1 & Hsub1 & Hle1 & Hfix1 & Hout1).
    destruct (IH _ Hinv1) as (Hinv2 & Hsc2 & Hsub2 & Hle2 & Hfix2 & Hout2).
    split; [exact Hinv2|]. split; [|split; [|split; [|split]]].
    + rewrite correct_count_app. lia.
    + rewrite fmap_app, Hsub1, Hsub2.
      set (a0 := Nat.min (Quiz.step st0) 4) in *.
      set (a1 := Nat.min (Quiz.step (Quiz.dispatch st0 a).1) 4) in *.
      set (a2 := Nat.min (Quiz.step (Quiz.run (Quiz.dispatch st0 a).1 acts).1) 4) in *.
      assert (a0 <= a1) by (unfold a0, a1; lia).
      assert (a1 <= a2) by (unfold a1, a2; lia).
      replace (a2 - a0) with ((a1 - a0) + (a2 - a1)) by lia.
      rewrite seq_app. do 2 f_equal. lia.
    + lia.
    + intros H5. rewrite (Hfix1 H5) in *. now apply Hfix2.
    + intros f args Hin. apply elem_of_app in Hin as [Hin|Hin].
      * destruct Hout1 as [Ho|[Ho H5]]; rewrite Ho in Hin; [inversion Hin|].
        apply list_elem_of_singleton in Hin. injection Hin as -> ->.
        pose proof (Hfix1 H5) as E1.
        assert (E2 : (Quiz.run (Quiz.dispatch st0 a).1 acts).1 = st0).
        { rewrite <- E1 at 2. apply Hfix2. now rewrite E1. }
        rewrite E2. auto.
      * now apply Hout2.
Qed.

(** A full session: four right answers, a start two moves away from the
    correct order, the order repaired, the quiz finished. *)
Example quiz_session :
  Quiz.run
    (Quiz.init
       [ "Confirm authorization/permission is valid.";
         "Verify patient identity (two identifiers).";
         "Clarify request scope & preferred delivery method.";
         "Log disclosure per policy.";
         "Process request (fees/timelines per policy)." ])
    [ Quiz.Select "Verify two patient identifiers (e.g., full name and DOB).";
      Quiz.ClickSubmit;
      Quiz.Select "That the spouse knows the last visit date.";
      Quiz.ClickSubmit;
      Quiz.Select "Confirm scope & delivery, verify ID/authorization, and follow policy timelines.";
      Quiz.ClickSubmit;
      Quiz.Select "Disclose only what’s needed to fulfill the stated purpose.";
      Quiz.ClickSubmit;
      Quiz.ClickFinishQuiz;
      Quiz.ClickUp 1;
      Quiz.ClickDown 3;
      Quiz.ClickFinishQuiz;
      Quiz.ClickEnter ]
  = ({| Quiz.step := 5; Quiz.score := 3; Quiz.selected := None;
        Quiz.order := Quiz.CORRECT_ORDER |},
     [Invoke onComplete [JS.VNumber 3]]).
Proof. vm_compute. reflexivity. Qed.

(** C8: the score is additive over the multiple-choice questions.
    [submitMCQ] adds one exactly when the selected answer is the
    question's designated answer; the moves and the submission of the
    reorder task leave the score alone; after any run from the start the
    score is the number of correctly answered questions, the questions
    answered are 0, 1, ... in turn (at most the four), and [onComplete] is
    only ever called from the summary page, with that score, the order
    being the correct one. *)
Theorem C8_quiz_score_additive :
  (forall (st : Quiz.State) (sel : string) (m : Quiz.MCQ),
      Quiz.selected st = Some sel ->
      Quiz.MCQS !! Quiz.step st = Some m ->
      Quiz.score (Quiz.submitMCQ st)
      = Quiz.score st + (if bool_decide (sel = Quiz.correct m) then 1 else 0))
  /\ (forall (st : Quiz.State) (idx : nat),
        Quiz.score (Quiz.moveUp idx st) = Quiz.score st
        /\ Quiz.score (Quiz.moveDown idx st) = Quiz.score st
        /\ Quiz.score (Quiz.submitReorder st) = Quiz.score st)
  /\ (forall (start : list string) (acts : list Quiz.Action),
        let st := (Quiz.run (Quiz.init start) acts).1 in
        let out := (Quiz.run (Quiz.init start) acts).2 in
        let subs := Quiz.submissions (Quiz.init start) acts in
        Quiz.score st = correct_count subs
        /\ subs.*1 = seq 0 (Nat.min (Quiz.step st) 4)
        /\ (forall f args, Invoke f args ∈ out ->
              f = onComplete /\ args = [JS.VNumber (correct_count subs)]
              /\ Quiz.step st = 5 /\ Quiz.order st = Quiz.CORRECT_ORDER)).
Proof.
  split; [|split].
  - intros st sel m Hsel Hm. unfold Quiz.submitMCQ. rewrite Hsel, Hm. simpl.
    destruct (bool_decide (sel = Quiz.correct m)); lia.
  - intros st idx. unfold Quiz.moveUp, Quiz.moveDown, Quiz.submitReorder.
    repeat split; repeat case_match; reflexivity.
  - intros start acts st out subs.
    destruct (quiz_run acts _ (quiz_inv_init start))
      as (Hinv & Hsc & Hsub & _ & _ & Hout).
    fold st out subs in Hinv, Hsc, Hsub, Hout. simpl in Hsc, Hsub.
    split; [exact Hsc|]. split.
    + rewrite Hsub. f_equal. lia.
    + intros f args Hin. destruct (Hout f args Hin) as (-> & -> & H5).
      rewrite Hsc. repeat split; auto. now apply Hinv.
Qed.

Lemma C8_quiz_score_additive_witness :
  let st := {| Quiz.step := 1; Quiz.score := 1;
               Quiz.selected := Some "That the spouse knows the last visit date.";
               Quiz.order := Quiz.CORRECT_ORDER |} in
  Quiz.selected st = Some "That the spouse knows the last visit date."
  /\ Quiz.score (Quiz.submitMCQ st) = 1.
Proof.
  intros st. split; [reflexivity|].
  destruct C8_quiz_score_additive as (Hsub & _ & _).
  assert (Hm : exists m, Quiz.MCQS !! Quiz.step st = Some m)
    by (eexists; reflexivity).
  destruct Hm as [m Hm].
  rewrite (Hsub st _ m eq_refl Hm).
  injection Hm as <-. reflexivity.
Defined.

(** ** The phone call *)

Lemma callSteps_choice_nonempty (i : nat) (cs : Room.CallStep) (sel : string) :
  Room.callSteps !! i = Some cs -> sel ∈ Room.choices cs -> sel <> "".
Proof.
  intros Hcs Hsel.
  destruct i as [|[|[|i]]]; simpl in Hcs; try discriminate;
    injection Hcs as <-; simpl in Hsel;
    repeat (apply elem_of_cons in Hsel as [->|Hsel]; [discriminate|]);
    inversion Hsel.
Qed.

(** C2, as the code has it: a wrong answer alerts and changes nothing, so
    the step index and also the selection stay as they were. *)
Lemma C2_wrong_answer_keeps_selection :
  let st := Room.setCallSelected (Some "Put caller on hold immediately.")
              (Room.setCallAnswered true Room.init) in
  Room.submitCall st = (st, [Alert "Not quite — try again!"])
  /\ Room.callIndex (Room.submitCall st).1 = 0
  /\ Room.callSelected (Room.submitCall st).1
     = Some "Put caller on hold immediately."
  /\ Room.callSelected (Room.submitCall st).1 <> None.
Proof. vm_compute. repeat split; discriminate. Qed.

(** C2 (amended): in the phone call a wrong answer raises the retry alert
    and leaves the whole state, step index and selection included, as it
    was; the right answer on a step before the last moves to the next step
    and clears the selection; the right answer on the last step completes
    the call. *)
Theorem C2_submitCall (st : Room.State) (sel : string) (cs : Room.CallStep) :
  Room.callSelected st = Some sel ->
  Room.callSteps !! Room.callIndex st = Some cs ->
  sel ∈ Room.choices cs ->
  (sel <> Room.correct cs ->
   Room.submitCall st = (st, [Alert "Not quite — try again!"]))
  /\ (sel = Room.correct cs -> Room.callIndex st < 2 ->
      let st' := (Room.submitCall st).1 in
      (Room.submitCall st).2 = []
      /\ Room.callIndex st' = Room.callIndex st + 1
      /\ Room.callSelected st' = None
      /\ Room.callComplete st' = Room.callComplete st)
  /\ (sel = Room.correct cs -> Room.callIndex st = 2 ->
      let st' := (Room.submitCall st).1 in
      (Room.submitCall st).2 = []
      /\ Room.callIndex st' = 2
      /\ Room.callComplete st' = true).
Proof.
  intros Hsel Hcs Hin.
  pose proof (callSteps_choice_nonempty _ _ _ Hcs Hin) as Hne.
  unfold Room.submitCall. rewrite Hsel, Hcs. simpl.
  rewrite (bool_decide_eq_false_2 _ Hne).
  split; [|split].
  - intros Hw. rewrite bool_decide_eq_true_2; [reflexivity|congruence].
  - intros -> Hlt. rewrite bool_decide_eq_false_2 by (intros H; now apply H).
    destruct (Nat.ltb_spec (Room.callIndex st) 2); [|lia]. simpl. auto.
  - intros -> Heq. rewrite bool_decide_eq_false_2 by (intros H; now apply H).
    rewrite Heq. simpl. auto.
Qed.

Lemma C2_submitCall_witness :
  let st := Room.setCallSelected (Some "Verify two identifiers (name + DOB).")
              (Room.setCallAnswered true Room.init) in
  Room.callIndex (Room.submitCall st).1 = 1
  /\ Room.callSelected (Room.submitCall st).1 = None.
Proof.
  intros st.
  assert (Hcs : exists cs, Room.callSteps !! Room.callIndex st = Some cs
                           /\ Room.correct cs = "Verify two identifiers (name + DOB).")
    by (eexists; split; reflexivity).
  destruct Hcs as (cs & Hcs & Hc).
  assert (Hin : "Verify two identifiers (name + DOB)." ∈ Room.choices cs).
  { injection Hcs as <-. apply list_elem_of_here. }
  destruct (C2_submitCall st _ cs eq_refl Hcs Hin) as (_ & Hr & _).
  destruct Hr as (_ & Hi & Hs & _); [now rewrite Hc | simpl; lia |].
  split; [exact Hi | exact Hs].
Defined.

(** ** How one event changes the room *)

Ltac room_cases :=
  unfold Room.dispatch, Room.submitCall, Room.handleAuditCheck;
  repeat case_match; simpl.

(** Only a chart checkbox changes the selection of charts. *)
Lemma dispatch_auditSelected (env : Room.Env) (st : Room.State) (a : Room.Action) :
  Room.auditSelected (Room.dispatch env st a).1 = Room.auditSelected st
  \/ exists i row,
      a = Room.ToggleChart i /\ Room.charts env !! i = Some row
      /\ Room.auditSelected (Room.dispatch env st a).1
         = Room.auditSelected (Room.toggleAudit (ChartRow.id row) st).
Proof. destruct a; room_cases; eauto 8. Qed.

(** Only a radio of the document viewer changes the picks and the
    credited pages. *)
Lemma dispatch_found (env : Room.Env) (st : Room.State) (a : Room.Action) :
  (Room.foundIssues (Room.dispatch env st a).1 = Room.foundIssues st
   /\ Room.pageSelections (Room.dispatch env st a).1 = Room.pageSelections st)
  \/ exists d p lbl k opt,
      a = Room.SelectIssue lbl k
      /\ Room.openDoc st = Some d
      /\ ChartDoc.pages d !! Room.docPage st = Some p
      /\ Room.baseOptions d (Page.id p) lbl !! k = Some opt
      /\ (Room.dispatch env st a).1 = Room.selectOption d (Page.id p) opt st.
Proof. destruct a; room_cases; eauto 12. Qed.

Lemma dispatch_openDoc (env : Room.Env) (st : Room.State) (a : Room.Action) :
  Room.openDoc (Room.dispatch env st a).1 = Room.openDoc st
  \/ Room.openDoc (Room.dispatch env st a).1 = None
  \/ exists i d, Room.chartDocs !! i = Some d
                 /\ Room.openDoc (Room.dispatch env st a).1 = Some d.
Proof. destruct a; room_cases; eauto 8. Qed.

(** No handler touches [codingDone]; answers change only in the open
    binder, which stays open. *)
Lemma dispatch_codingDone (env : Room.Env) (st : Room.State) (a : Room.Action) :
  Room.codingDone (Room.dispatch env st a).1 = Room.codingDone st.
Proof. destruct a; room_cases; reflexivity. Qed.

Lemma dispatch_codingAnswers (env : Room.Env) (st : Room.State) (a : Room.Action) :
  Room.codingAnswers (Room.dispatch env st a).1 = Room.codingAnswers st
  \/ (Room.codingOpen st = true /\ Room.codingOpen (Room.dispatch env st a).1 = true).
Proof. destruct a; room_cases; auto. Qed.

Lemma effects_fields (env : Room.Env) (st : Room.State) :
  Room.auditSelected (Room.effects env st) = Room.auditSelected st
  /\ Room.foundIssues (Room.effects env st) = Room.foundIssues st
  /\ Room.pageSelections (Room.effects env st) = Room.pageSelections st
  /\ Room.openDoc (Room.effects env st) = Room.openDoc st
  /\ Room.codingAnswers (Room.effects env st) = Room.codingAnswers st
  /\ Room.auditDone (Room.effects env st) = Room.auditDone st.
Proof. unfold Room.effects. case_match; simpl; auto 10. Qed.

Lemma step_state (env : Room.Env) (st : Room.State) (a : Room.Action) :
  (Room.step env st a).1 = Room.effects env (Room.dispatch env st a).1.
Proof. unfold Room.step. destruct (Room.dispatch env st a). reflexivity. Qed.

Lemma codingAllCorrect_answers (env : Room.Env) (st st' : Room.State) :
  Room.codingAnswers st' = Room.codingAnswers st ->
  Room.codingAllCorrect env st' = Room.codingAllCorrect env st.
Proof. unfold Room.codingAllCorrect. now intros ->. Qed.

Lemma run_cons_room (env : Room.Env) (st : Room.State) (a : Room.Action)
    (acts : list Room.Action) :
  Room.run env st (a :: acts)
  = ((Room.run env (Room.step env st a).1 acts).1,
     ((Room.step env st a).2 ++ (Room.run env (Room.step env st a).1 acts).2)%list).
Proof.
  simpl. destruct (Room.step env st a) as [st1 o1]. simpl.
  destruct (Room.run env st1 acts) as [st2 o2]. reflexivity.
Qed.

Lemma run_app_room (env : Room.Env) (acts1 acts2 : list Room.Action) :
  forall st,
    (Room.run env st (acts1 ++ acts2)).1
    = (Room.run env (Room.run env st acts1).1 acts2).1.
Proof.
  induction acts1 as [|a acts1 IH]; intros st; [reflexivity|].
  rewrite <- app_comm_cons, !run_cons_room. simpl. apply IH.
Qed.

(** ** The handlers of the audit *)

Lemma toggleAudit_NoDup (id : string) (st : Room.State) :
  NoDup (Room.auditSelected st) ->
  NoDup (Room.auditSelected (Room.toggleAudit id st)).
Proof.
  intros Hnd. unfold Room.toggleAudit. simpl. case_bool_decide as Hin.
  - now apply NoDup_filter.
  - apply NoDup_app. split; [exact Hnd|]. split.
    + intros x Hx Hx'. apply list_elem_of_singleton in Hx'. congruence.
    + apply NoDup_singleton.
Qed.

Lemma toggleAudit_elem (id x : string) (st : Room.State) :
  x ∈ Room.auditSelected (Room.toggleAudit id st) ->
  x ∈ Room.auditSelected st \/ x = id.
Proof.
  unfold Room.toggleAudit. simpl. case_bool_decide as Hin; intros Hx.
  - apply list_elem_of_filter in Hx. tauto.
  - apply elem_of_app in Hx as [Hx|Hx]; [tauto|].
    apply list_elem_of_singleton in Hx. tauto.
Qed.

Lemma selectOption_found (d : ChartDoc.t) (pageId : string) (opt : DocOption.t)
    (st : Room.State) (k : string) :
  k ∈ Room.foundIssues (Room.selectOption d pageId opt st)
  <-> (k = Room.pageKey (ChartDoc.id d) pageId
       /\ DocOption.value opt = Room.correctValue d pageId)
      \/ (k <> Room.pageKey (ChartDoc.id d) pageId /\ k ∈ Room.foundIssues st).
Proof.
  unfold Room.selectOption. simpl. case_bool_decide as Hv.
  - rewrite elem_of_app, list_elem_of_filter, list_elem_of_singleton. tauto.
  - rewrite list_elem_of_filter. tauto.
Qed.

Lemma selectOption_NoDup (d : ChartDoc.t) (pageId : string) (opt : DocOption.t)
    (st : Room.State) :
  NoDup (Room.foundIssues st) ->
  NoDup (Room.foundIssues (Room.selectOption d pageId opt st)).
Proof.
  intros Hnd. unfold Room.selectOption. simpl.
  assert (Hf : NoDup (filter (fun k => k <> Room.pageKey (ChartDoc.id d) pageId)
                        (Room.foundIssues st))) by now apply NoDup_filter.
  case_bool_decide; [|exact Hf].
  apply NoDup_app. split; [exact Hf|]. split; [|apply NoDup_singleton].
  intros x Hx Hx'. apply list_elem_of_filter in Hx as [Hne _].
  apply list_elem_of_singleton in Hx'. contradiction.
Qed.

Lemma selectOption_selections (d : ChartDoc.t) (pageId : string) (opt : DocOption.t)
    (st : Room.State) :
  Room.pageSelections (Room.selectOption d pageId opt st)
  = <[Room.pageKey (ChartDoc.id d) pageId := DocOption.value opt]>
      (Room.pageSelections st).
Proof. reflexivity. Qed.

(** The keys of the sample pages are pairwise different. *)
Lemma page_keys_NoDup : NoDup (key_of <$> all_pages).
Proof. apply (bool_decide_unpack _). vm_compute. exact I. Qed.

Lemma fmap_NoDup_inj_on {A B} (f : A -> B) (l : list A) (x y : A) :
  NoDup (f <$> l) -> x ∈ l -> y ∈ l -> f x = f y -> x = y.
Proof.
  induction l as [|z l IH]; intros Hnd Hx Hy Hf; [inversion Hx|].
  rewrite fmap_cons in Hnd. apply NoDup_cons in Hnd as [Hz Hnd].
  apply elem_of_cons in Hx as [->|Hx]; apply elem_of_cons in Hy as [->|Hy];
    auto.
  - exfalso. apply Hz. rewrite Hf. now apply list_elem_of_fmap_2.
  - exfalso. apply Hz. rewrite <- Hf. now apply list_elem_of_fmap_2.
Qed.

Lemma key_of_inj (dp dp' : ChartDoc.t * Page.t) :
  dp ∈ all_pages -> dp' ∈ all_pages -> key_of dp = key_of dp' -> dp = dp'.
Proof. apply fmap_NoDup_inj_on, page_keys_NoDup. Qed.

Lemma all_pages_elem (d : ChartDoc.t) (p : Page.t) :
  d ∈ Room.chartDocs -> p ∈ ChartDoc.pages d -> (d, p) ∈ all_pages.
Proof.
  intros Hd Hp. unfold all_pages. apply list_elem_of_bind.
  exists d. split; [|exact Hd]. now apply list_elem_of_fmap_2.
Qed.

(** ** The invariant of the room *)

Lemma codingAllCorrect_init (env : Room.Env) :
  Room.codingAllCorrect env Room.init = false.
Proof.
  unfold Room.codingAllCorrect. destruct (Room.codingCases env) as [|c l];
    [reflexivity|]. simpl. reflexivity.
Qed.

Lemma room_inv_init (env : Room.Env) : room_inv env Room.init.
Proof.
  split; simpl.
  - apply NoDup_nil_2.
  - intros id H. inversion H.
  - apply NoDup_nil_2.
  - intros k H. inversion H.
  - intros dp _. unfold judged_correct. simpl. rewrite lookup_empty. split.
    + intros H. inversion H.
    + discriminate.
  - discriminate.
  - rewrite codingAllCorrect_init. discriminate.
Qed.

Lemma room_inv_step (env : Room.Env) (st : Room.State) (a : Room.Action) :
  room_inv env st -> room_inv env (Room.step env st a).1.
Proof.
  intros [I1 I2 I3 I4 I5 I6 I7]. rewrite step_state.
  destruct (effects_fields env (Room.dispatch env st a).1)
    as (Es & Ef & Ep & Eo & Ea & _).
  assert (Hfound :
    NoDup (Room.foundIssues (Room.dispatch env st a).1)
    /\ (forall k, k ∈ Room.foundIssues (Room.dispatch env st a).1 ->
                  exists dp, dp ∈ all_pages /\ k = key_of dp)
    /\ (forall dp, dp ∈ all_pages ->
          (key_of dp ∈ Room.foundIssues (Room.dispatch env st a).1
           <-> judged_correct (Room.dispatch env st a).1 dp))).
  { destruct (dispatch_found env st a)
      as [[Hf Hp]|(d & p & lbl & k & opt & _ & Hd & Hpg & _ & ->)].
    - unfold judged_correct. rewrite Hf, Hp. auto.
    - assert (Hdp : (d, p) ∈ all_pages).
      { apply all_pages_elem; [now apply I6|]. eapply list_elem_of_lookup_2, Hpg. }
      split; [now apply selectOption_NoDup|]. split.
      + intros k' Hk'. apply selectOption_found in Hk' as [[-> _]|[_ Hk']].
        * exists (d, p). auto.
        * now apply I4.
      + intros dp Hin. unfold judged_correct.
        rewrite selectOption_found, selectOption_selections.
        destruct (decide (key_of dp = Room.pageKey (ChartDoc.id d) (Page.id p)))
          as [Hk|Hk].
        * assert (dp = (d, p)) as -> by (apply key_of_inj; auto).
          unfold key_of. simpl. rewrite lookup_insert_eq. split.
          -- intros [[_ ->]|[Hne _]]; [reflexivity|contradiction].
          -- intros [= ->]. left. auto.
        * rewrite lookup_insert_ne by congruence. rewrite <- (I5 dp Hin : _ <-> judged_correct st dp).
          split; [intros [[? _]|[_ ?]]; [contradiction|assumption] | auto]. }
  destruct Hfound as (Hf1 & Hf2 & Hf3).
  split.
  - rewrite Es. destruct (dispatch_auditSelected env st a)
      as [->|(i & row & _ & _ & ->)]; [exact I1|now apply toggleAudit_NoDup].
  - rewrite Es. intros id. destruct (dispatch_auditSelected env st a)
      as [->|(i & row & _ & Hrow & ->)]; [apply I2|].
    intros Hid. apply toggleAudit_elem in Hid as [Hid| ->]; [now apply I2|].
    unfold chart_ids. apply list_elem_of_fmap_2.
    eapply list_elem_of_lookup_2, Hrow.
  - now rewrite Ef.
  - now rewrite Ef.
  - intros dp Hin. unfold judged_correct. rewrite Ef, Ep. now apply Hf3.
  - rewrite Eo. intros d. destruct (dispatch_openDoc env st a)
      as [->|[->|(i & d' & Hd' & ->)]]; [apply I6|discriminate|].
    intros [= <-]. eapply list_elem_of_lookup_2, Hd'.
  - unfold Room.effects.
    destruct (Room.codingAllCorrect env (Room.dispatch env st a).1) eqn:Hall;
      simpl.
    + destruct (Room.codingOpen (Room.dispatch env st a).1) eqn:Hopen;
        simpl; [reflexivity|].
      intros _. rewrite dispatch_codingDone. apply I7.
      destruct (dispatch_codingAnswers env st a) as [Hsame|[_ Ho]];
        [|congruence].
      now rewrite <- (codingAllCorrect_answers env st _ Hsame).
    + unfold Room.codingAllCorrect in *. simpl. rewrite Hall. discriminate.
Qed.

Lemma room_inv_run (env : Room.Env) (acts : list Room.Action) :
  forall st, room_inv env st -> room_inv env (Room.run env st acts).1.
Proof.
  induction acts as [|a acts IH]; intros st Hinv; [exact Hinv|].
  rewrite run_cons_room. simpl. apply IH. now apply room_inv_step.
Qed.

Lemma room_inv_reachable (env : Room.Env) (st : Room.State) :
  Room.reachable env st -> room_inv env st.
Proof. intros [acts <-]. apply room_inv_run, room_inv_init. Qed.

(** ** Credited pages *)

Lemma filter_none {A} (P : A -> Prop) `{forall x, Decision (P x)} (l : list A) :
  (forall x, x ∈ l -> ~ P x) -> filter P l = [].
Proof.
  induction l as [|y l IH]; intros Hl; [reflexivity|].
  rewrite filter_cons_False by (apply Hl, list_elem_of_here).
  apply IH. intros x Hx. apply Hl. now apply list_elem_of_further.
Qed.

Lemma found_count (env : Room.Env) (st : Room.State) :
  room_inv env st -> length (Room.foundIssues st) = pages_judged_correct st.
Proof.
  intros [_ _ I3 I4 I5 _ _]. unfold pages_judged_correct.
  rewrite <- (length_fmap key_of). apply Permutation_length.
  apply NoDup_Permutation; [exact I3| |].
  - eapply sublist_NoDup; [exact page_keys_NoDup|].
    apply fmap_sublist, sublist_filter.
  - intros k. rewrite list_elem_of_fmap. split.
    + intros Hk. destruct (I4 k Hk) as (dp & Hdp & ->).
      exists dp. split; [reflexivity|]. apply list_elem_of_filter.
      split; [now apply I5|exact Hdp].
    + intros (dp & -> & Hdp). apply list_elem_of_filter in Hdp as [Hj Hdp].
      now apply I5.
Qed.

(** C10: in every state the room can reach, [foundIssues] holds no page
    key twice, so its length is the number of distinct credited pages,
    which is the number of pages whose latest pick is correct; and a radio
    handler leaves the key of its page at most once in the list whatever
    the list was, so picking the correct option again changes nothing. *)
Theorem C10_foundIssues_no_duplicates :
  (forall (env : Room.Env) (acts : list Room.Action),
      let st := (Room.run env Room.init acts).1 in
      NoDup (Room.foundIssues st)
      /\ length (Room.foundIssues st)
         = size (list_to_set (Room.foundIssues st) : gset string)
      /\ length (Room.foundIssues st) = pages_judged_correct st)
  /\ (forall (d : ChartDoc.t) (pageId : string) (opt : DocOption.t) (st : Room.State),
        length (filter (fun k => k = Room.pageKey (ChartDoc.id d) pageId)
                  (Room.foundIssues (Room.selectOption d pageId opt st))) <= 1
        /\ Room.foundIssues
             (Room.selectOption d pageId opt (Room.selectOption d pageId opt st))
           = Room.foundIssues (Room.selectOption d pageId opt st)).
Proof.
  split.
  - intros env acts st.
    pose proof (room_inv_run env acts _ (room_inv_init env)) as Hinv.
    fold st in Hinv. split; [apply Hinv|]. split.
    + symmetry. apply size_list_to_set, Hinv.
    + now apply (found_count env).
  - intros d pageId opt st. unfold Room.selectOption. simpl.
    set (key := Room.pageKey (ChartDoc.id d) pageId).
    set (w := filter (fun k => k <> key) (Room.foundIssues st)).
    assert (Hw0 : filter (fun k => k = key) w = []).
    { apply filter_none. intros x Hx.
      unfold w in Hx. apply list_elem_of_filter in Hx. tauto. }
    assert (Hww : filter (fun k => k <> key) w = w).
    { unfold w. rewrite list_filter_filter. apply list_filter_iff. tauto. }
    case_bool_decide.
    + rewrite !filter_app, Hw0, Hww. simpl.
      rewrite filter_cons_True, filter_cons_False by tauto.
      rewrite !filter_nil, app_nil_r. simpl. split; [lia|reflexivity].
    + rewrite Hw0, Hww. simpl. split; [lia|reflexivity].
Qed.

Lemma all_pages_cases (dp : ChartDoc.t * Page.t) :
  dp ∈ all_pages -> Exists (fun x => dp = x) all_pages.
Proof. intros H. apply Exists_exists. eauto. Qed.

(** Among the three radios of a sample page exactly one carries the
    correct value: the real issue (second of the base options) when the
    page has one, "no issues" (the first) otherwise. *)
Lemma baseOptions_correct (dp : ChartDoc.t * Page.t) (lbl : string) (k : nat)
    (opt : DocOption.t) :
  dp ∈ all_pages ->
  Room.baseOptions dp.1 (Page.id dp.2) lbl !! k = Some opt ->
  (DocOption.value opt = Room.correctValue dp.1 (Page.id dp.2)
   <-> k = match Room.realIssue dp.1 (Page.id dp.2) with
           | Some _ => 1
           | None => 0
           end).
Proof.
  intros Hdp Hk. apply all_pages_cases in Hdp.
  unfold all_pages in Hdp. cbn in Hdp.
  repeat (apply Exists_cons in Hdp as [->|Hdp];
          [destruct k as [|[|[|k]]]; cbn in Hk; try discriminate;
           injection Hk as <-; cbn; split; (discriminate || reflexivity || lia)|]).
  inversion Hdp.
Qed.

Example room_viewing_D1_open :
  Room.openDoc room_viewing_D1 = Room.chartDocs !! 0
  /\ Room.docPage room_viewing_D1 = 0
  /\ Room.callComplete room_viewing_D1 = true.
Proof. vm_compute. auto. Qed.

(** C6: the correct value of a page is the value of its real issue's
    option when the page has a real issue and the value of the "no
    issues" option otherwise; a pick stores itself for its page and
    credits that page exactly when it is the correct value, without
    touching the pick or the credit of any other page; so in every
    reachable state a page is credited iff its latest pick is correct, and
    on the first page of D1 (which has no issue) picking "no issues" earns
    the credit and then picking the distractor loses it. *)
Theorem C6_page_grading :
  (forall (d : ChartDoc.t) (pageId : string),
      match Room.realIssue d pageId with
      | Some i =>
          Issue.pageId i = pageId
          /\ Room.realOption d pageId
             = Some {| DocOption.label := Issue.label i;
                       DocOption.value := Room.correctValue d pageId |}
      | None =>
          Room.realOption d pageId = None
          /\ Room.correctValue d pageId
             = DocOption.value (Room.noIssuesOption d pageId)
      end)
  /\ (forall (d : ChartDoc.t) (pageId : string) (opt : DocOption.t)
             (st : Room.State) (k : string),
        let key := Room.pageKey (ChartDoc.id d) pageId in
        let st' := Room.selectOption d pageId opt st in
        Room.pageSelections st' !! key = Some (DocOption.value opt)
        /\ (key ∈ Room.foundIssues st'
            <-> DocOption.value opt = Room.correctValue d pageId)
        /\ (k <> key ->
            Room.pageSelections st' !! k = Room.pageSelections st !! k
            /\ (k ∈ Room.foundIssues st' <-> k ∈ Room.foundIssues st)))
  /\ (forall (env : Room.Env) (acts : list Room.Action) (dp : ChartDoc.t * Page.t),
        dp ∈ all_pages ->
        let st := (Room.run env Room.init acts).1 in
        key_of dp ∈ Room.foundIssues st
        <-> Room.pageSelections st !! key_of dp
            = Some (Room.correctValue dp.1 (Page.id dp.2)))
  /\ (forall lbl : string,
        Room.foundIssues
          (Room.run env_unshuffled room_viewing_D1 [Room.SelectIssue lbl 0]).1
        = ["D1:p1"]
        /\ Room.foundIssues
             (Room.run env_unshuffled room_viewing_D1
                [Room.SelectIssue lbl 0; Room.SelectIssue lbl 1]).1
           = []).
Proof.
  split; [|split; [|split]].
  - intros d pageId. unfold Room.realOption, Room.correctValue, Room.realIssue.
    destruct (List.find _ _) as [i|] eqn:Hf.
    + apply find_some in Hf as [_ Hf]. apply bool_decide_eq_true in Hf. auto.
    + auto.
  - intros d pageId opt st k key st'. unfold st', key.
    rewrite selectOption_selections, lookup_insert_eq. split; [reflexivity|].
    split.
    + rewrite selectOption_found. tauto.
    + intros Hne. rewrite lookup_insert_ne by congruence.
      rewrite selectOption_found. tauto.
  - intros env acts dp Hdp st.
    pose proof (room_inv_run env acts _ (room_inv_init env)) as Hinv.
    apply (inv_found_correct _ _ Hinv dp Hdp).
  - intros lbl. vm_compute. auto.
Qed.

Lemma C6_page_grading_witness :
  "D3:p1" ∈ Room.foundIssues
              (Room.selectOption
                 {| ChartDoc.id := "D3"; ChartDoc.title := "";
                    ChartDoc.pages := [];
                    ChartDoc.issues := [Room.mkIssue "i1" "p1" "DOB mismatch vs. request"] |}
                 "p1"
                 {| DocOption.label := "DOB mismatch vs. request";
                    DocOption.value := "D3:i1" |}
                 Room.init)
  /\ "D3:p1" ∉ Room.foundIssues
                 (Room.selectOption
                    {| ChartDoc.id := "D3"; ChartDoc.title := "";
                       ChartDoc.pages := [];
                       ChartDoc.issues := [Room.mkIssue "i1" "p1" "DOB mismatch vs. request"] |}
                    "p2"
                    {| DocOption.label := "No issues on this page";
                       DocOption.value := "D3:p2:none" |}
                    Room.init).
Proof.
  destruct C6_page_grading as (_ & Hsel & _). split.
  - destruct (Hsel
                {| ChartDoc.id := "D3"; ChartDoc.title := "";
                   ChartDoc.pages := [];
                   ChartDoc.issues := [Room.mkIssue "i1" "p1" "DOB mismatch vs. request"] |}
                "p1"
                {| DocOption.label := "DOB mismatch vs. request";
                   DocOption.value := "D3:i1" |}
                Room.init "D3:p1") as (_ & Hiff & _).
    apply Hiff. reflexivity.
  - intros Hin.
    destruct (Hsel
                {| ChartDoc.id := "D3"; ChartDoc.title := "";
                   ChartDoc.pages := [];
                   ChartDoc.issues := [Room.mkIssue "i1" "p1" "DOB mismatch vs. request"] |}
                "p2"
                {| DocOption.label := "No issues on this page";
                   DocOption.value := "D3:p2:none" |}
                Room.init "D3:p1") as (_ & _ & Hother).
    destruct Hother as [_ Hiff]; [discriminate|].
    apply Hiff in Hin. inversion Hin.
Defined.

(** ** Picking exactly the defective rows *)

Section exact_pick.
Context {A : Type} (P D : A -> Prop) `{forall x, Decision (P x)} `{forall x, Decision (D x)}.

Lemma filter_ext_in (l : list A) :
  (forall x, x ∈ l -> (P x <-> D x)) -> filter P l = filter D l.
Proof.
  induction l as [|x l IH]; intros Hl; [reflexivity|].
  rewrite !filter_cons.
  assert (Hx : P x <-> D x) by apply Hl, list_elem_of_here.
  rewrite IH by (intros y Hy; apply Hl; now apply list_elem_of_further).
  destruct (decide (P x)), (decide (D x)); tauto.
Qed.

Lemma filter_within_length (l : list A) :
  Forall D (filter P l) -> length (filter P l) <= length (filter D l).
Proof.
  induction l as [|x l IH]; [reflexivity|].
  rewrite !filter_cons. destruct (decide (P x)), (decide (D x)); simpl; intros HF.
  - apply Forall_cons in HF as [_ HF]. apply IH in HF. lia.
  - apply Forall_cons in HF as [HD _]. contradiction.
  - apply IH in HF. lia.
  - now apply IH.
Qed.

(** A part of [l] that lies within the [D]-rows and has as many rows as
    there are [D]-rows is the [D]-rows. *)
Lemma filter_within_same_length (l : list A) :
  Forall D (filter P l) ->
  length (filter P l) = length (filter D l) ->
  filter P l = filter D l.
Proof.
  induction l as [|x l IH]; [reflexivity|].
  rewrite !filter_cons. destruct (decide (P x)), (decide (D x)); simpl;
    intros HF Hlen.
  - apply Forall_cons in HF as [_ HF]. f_equal. apply IH; [exact HF|lia].
  - apply Forall_cons in HF as [HD _]. contradiction.
  - apply filter_within_length in HF. lia.
  - now apply IH.
Qed.

End exact_pick.

Lemma picked_ids (l : list ChartRow.t) (sel : list string) :
  NoDup (ChartRow.id <$> l) ->
  NoDup sel ->
  (forall x, x ∈ sel -> x ∈ ChartRow.id <$> l) ->
  ChartRow.id <$> filter (fun c => ChartRow.id c ∈ sel) l ≡ₚ sel.
Proof.
  intros Hl Hsel Hsub. apply NoDup_Permutation; [|exact Hsel|].
  - eapply sublist_NoDup; [exact Hl|]. apply fmap_sublist, sublist_filter.
  - intros x. rewrite list_elem_of_fmap. split.
    + intros (c & -> & Hc). now apply list_elem_of_filter in Hc as [Hc _].
    + intros Hx. destruct (proj1 (list_elem_of_fmap _ _ _) (Hsub x Hx))
        as (c & -> & Hc).
      exists c. split; [reflexivity|]. now apply list_elem_of_filter.
Qed.

Lemma exact_pick_iff (l : list ChartRow.t) (sel : list string) :
  NoDup (ChartRow.id <$> l) ->
  NoDup sel ->
  (forall x, x ∈ sel -> x ∈ ChartRow.id <$> l) ->
  let picked := filter (fun c => ChartRow.id c ∈ sel) l in
  let defective := filter (fun c => ChartRow.isDefect c = true) l in
  (length picked = length defective /\ forallb ChartRow.isDefect picked = true)
  <-> (list_to_set sel : gset string) = list_to_set (ChartRow.id <$> defective).
Proof.
  intros Hl Hsel Hsub picked defective.
  pose proof (picked_ids l sel Hl Hsel Hsub) as Hids. fold picked in Hids.
  split.
  - intros [Hlen Hall].
    assert (HF : Forall (fun c => ChartRow.isDefect c = true) picked).
    { apply Forall_forall. intros c Hc. apply list_elem_of_In in Hc.
      exact (proj1 (forallb_forall _ _) Hall c Hc). }
    assert (E : picked = defective)
      by (apply filter_within_same_length; assumption).
    rewrite <- E. symmetry. now apply list_to_set_perm_L.
  - intros Hset.
    assert (E : picked = defective).
    { apply filter_ext_in. intros c Hc.
      rewrite <- (elem_of_list_to_set (C := gset string)), Hset,
        elem_of_list_to_set, list_elem_of_fmap. split.
      - intros (c' & Hid & Hc'). apply list_elem_of_filter in Hc' as [HD Hc'].
        assert (c = c') as -> by (eapply fmap_NoDup_inj_on; eauto). exact HD.
      - intros HD. exists c. split; [reflexivity|]. now apply list_elem_of_filter. }
    rewrite E. split; [reflexivity|].
    apply forallb_forall. intros c Hc.
    apply list_elem_of_In, list_elem_of_filter in Hc as [HD _]. exact HD.
Qed.

(** ** The chart audit *)

Section audit.
Variable env : Room.Env.
Hypothesis charts_perm : Room.charts env ≡ₚ Room.charts_base.

Lemma chart_ids_NoDup : NoDup (chart_ids env).
Proof.
  unfold chart_ids. rewrite charts_perm.
  apply (bool_decide_unpack _). vm_compute. exact I.
Qed.

Lemma defective_count :
  length (filter (fun c => ChartRow.isDefect c = true) (Room.charts env)) = 2.
Proof. rewrite charts_perm. reflexivity. Qed.

Lemma defective_ids_pair : defective_ids env = {[ "3"; "5" ]}.
Proof.
  unfold defective_ids.
  rewrite (list_to_set_perm_L _ (ChartRow.id <$>
             filter (fun c => ChartRow.isDefect c = true) Room.charts_base)).
  - cbn. set_solver.
  - now rewrite charts_perm.
Qed.

(** [handleAuditCheck] by cases on the selected set. *)
Lemma handleAuditCheck_spec (st : Room.State) :
  room_inv env st ->
  Room.handleAuditCheck env st
  = if decide (size (selected_set st) = 2) then
      if decide (selected_set st = defective_ids env) then
        if length (Room.foundIssues st) <? 3 then (st, [alert_pages])
        else (Room.setAuditDone true st, [])
      else (st, [alert_not_quite])
    else (st, [alert_count]).
Proof.
  intros Hinv.
  pose proof (inv_sel_nodup _ _ Hinv) as Hnd.
  pose proof (inv_sel_ids _ _ Hinv) as Hids.
  pose proof (picked_ids _ _ chart_ids_NoDup Hnd Hids) as Hp.
  pose proof (exact_pick_iff _ _ chart_ids_NoDup Hnd Hids) as Hex.
  cbn zeta in Hex. rewrite defective_count in Hex.
  unfold Room.handleAuditCheck, selected_set, Room.picked in *.
  rewrite size_list_to_set by exact Hnd.
  apply Permutation_length in Hp. rewrite length_fmap in Hp. rewrite Hp.
  rewrite Hp in Hex.
  destruct (decide (length (Room.auditSelected st) = 2)) as [H2|H2].
  - rewrite (proj2 (Nat.eqb_eq _ _) H2). simpl.
    destruct (decide (_ = defective_ids env)) as [Hd|Hd].
    + apply Hex in Hd as [_ ->]. reflexivity.
    + destruct (forallb _ _) eqn:Hall; [|reflexivity].
      exfalso. apply Hd, Hex. auto.
  - rewrite (proj2 (Nat.eqb_neq _ _) H2). reflexivity.
Qed.

Lemma defective_set_size : size (defective_ids env) = 2.
Proof.
  rewrite defective_ids_pair.
  rewrite size_union by set_solver. now rewrite !size_singleton.
Qed.

End audit.

Lemma env_unshuffled_charts : Room.charts env_unshuffled ≡ₚ Room.charts_base.
Proof. vm_compute. reflexivity. Qed.

Lemma mountEnv_charts (rnd : JS.Rand) (n : nat) :
  Room.charts (Room.mountEnv rnd n) ≡ₚ Room.charts_base.
Proof.
  unfold Room.mountEnv.
  destruct (JS.shuffle rnd _ n) as [x n0].
  destruct (Room.codingCases_memo rnd n0) as [cc n1].
  pose proof (shuffle_perm rnd Room.charts_base n1) as Hp.
  fold (Room.charts_memo rnd n1) in Hp.
  destruct (Room.charts_memo rnd n1) as [ch n2]. exact Hp.
Qed.

Example room_picked_5_3_selection :
  Room.auditSelected room_picked_5_3 = ["5"; "3"].
Proof. vm_compute. reflexivity. Qed.

Example room_audit_ready_state :
  Room.auditSelected room_audit_ready = ["3"; "5"]
  /\ Room.foundIssues room_audit_ready = ["D1:p1"; "D1:p2"; "D1:p3"]
  /\ Room.auditDone room_audit_ready = false.
Proof. vm_compute. auto. Qed.

(** C5: in every reachable state, a selection whose size is not 2 gets
    the "exactly TWO" alert and the state is left as it was; a selection
    of size 2 gets no "Not quite" alert exactly when, as a set, it is the
    set of defective charts, which is charts 3 and 5 however the rows were
    shuffled and in whatever order the two were ticked. *)
Theorem C5_multi_select_exact (env : Room.Env) (st : Room.State) :
  Room.charts env ≡ₚ Room.charts_base ->
  Room.reachable env st ->
  (size (selected_set st) <> 2 ->
   Room.handleAuditCheck env st = (st, [alert_count]))
  /\ (size (selected_set st) = 2 ->
      (alert_count ∉ (Room.handleAuditCheck env st).2)
      /\ (selected_set st = defective_ids env
          <-> alert_not_quite ∉ (Room.handleAuditCheck env st).2)
      /\ (selected_set st <> defective_ids env ->
          Room.handleAuditCheck env st = (st, [alert_not_quite])))
  /\ defective_ids env = {[ "3"; "5" ]}.
Proof.
  intros Hperm Hreach. apply room_inv_reachable in Hreach.
  rewrite (handleAuditCheck_spec env Hperm st Hreach).
  split; [|split; [|now apply defective_ids_pair]].
  - intros Hne. now rewrite decide_False.
  - intros H2. rewrite decide_True by exact H2.
    destruct (decide (selected_set st = defective_ids env)) as [Hd|Hd].
    + destruct (length (Room.foundIssues st) <? 3); simpl;
        (split; [|split]); try tauto;
        try (split; [intros _|auto]);
        rewrite ?list_elem_of_singleton; try apply not_elem_of_nil;
        discriminate.
    + simpl. split; [|split]; [| |reflexivity].
      * rewrite list_elem_of_singleton. discriminate.
      * split; [contradiction|]. intros Hn. exfalso. apply Hn.
        apply list_elem_of_here.
Qed.

Lemma C5_multi_select_exact_witness :
  size (selected_set room_picked_5_3) = 2
  /\ alert_not_quite ∉ (Room.handleAuditCheck env_unshuffled room_picked_5_3).2.
Proof.
  assert (Hr : Room.reachable env_unshuffled room_picked_5_3)
    by (eexists; reflexivity).
  destruct (C5_multi_select_exact env_unshuffled room_picked_5_3
              env_unshuffled_charts Hr) as (_ & H2 & Hpair).
  assert (Hsel : selected_set room_picked_5_3 = {[ "3"; "5" ]}).
  { unfold selected_set. rewrite room_picked_5_3_selection. set_solver. }
  pose proof (eq_trans Hsel (eq_sym Hpair)) as Hdef.
  assert (Hsize : size (selected_set room_picked_5_3) = 2)
    by exact (eq_ind_r (fun s : gset string => size s = 2)
                (defective_set_size _ env_unshuffled_charts) Hdef).
  split; [exact Hsize|].
  destruct (H2 Hsize) as (_ & Hiff & _). apply Hiff. exact Hdef.
Defined.

(** C4: from a reachable state in which the audit is not yet done, the
    submission makes it done exactly when the selected charts are, as a
    set, the defective ones and at least 3 pages over all documents are
    judged correctly (which is the length of [foundIssues]); with the
    right pair and fewer than 3 such pages the state is left as it was,
    not done. *)
Theorem C4_audit_done_iff (env : Room.Env) (st : Room.State) :
  Room.charts env ≡ₚ Room.charts_base ->
  Room.reachable env st ->
  Room.auditDone st = false ->
  (Room.auditDone (Room.handleAuditCheck env st).1 = true
   <-> selected_set st = defective_ids env /\ 3 <= pages_judged_correct st)
  /\ (selected_set st = defective_ids env ->
      pages_judged_correct st < 3 ->
      Room.handleAuditCheck env st = (st, [alert_pages])
      /\ Room.auditDone (Room.handleAuditCheck env st).1 = false)
  /\ length (Room.foundIssues st) = pages_judged_correct st.
Proof.
  intros Hperm Hreach Hnd. apply room_inv_reachable in Hreach.
  pose proof (found_count env st Hreach) as Hcount.
  rewrite (handleAuditCheck_spec env Hperm st Hreach), Hcount.
  split; [|split; [|reflexivity]].
  - destruct (decide (selected_set st = defective_ids env)) as [Hd|Hd].
    + rewrite decide_True by (rewrite Hd; now apply defective_set_size).
      destruct (Nat.ltb_spec (pages_judged_correct st) 3); simpl.
      * rewrite Hnd. split; [discriminate|lia].
      * split; auto.
    + destruct (decide (size _ = 2)); simpl; rewrite Hnd;
        (split; [discriminate|tauto]).
  - intros Hd Hlt.
    rewrite decide_True by (rewrite Hd; now apply defective_set_size).
    rewrite decide_True by exact Hd.
    destruct (Nat.ltb_spec (pages_judged_correct st) 3); [|lia]. auto.
Qed.

Lemma C4_audit_done_iff_witness :
  Room.auditDone (Room.handleAuditCheck env_unshuffled room_audit_ready).1 = true
  /\ Room.auditDone room_audit_ready = false.
Proof.
  assert (Hr : Room.reachable env_unshuffled room_audit_ready)
    by (eexists; reflexivity).
  destruct room_audit_ready_state as (Hsel & Hfound & Hnd).
  destruct (C4_audit_done_iff env_unshuffled room_audit_ready
              env_unshuffled_charts Hr Hnd) as (Hiff & _ & Hcount).
  split; [|exact Hnd]. apply Hiff. split.
  - rewrite (defective_ids_pair _ env_unshuffled_charts).
    unfold selected_set. rewrite Hsel. set_solver.
  - rewrite <- Hcount, Hfound. simpl. lia.
Defined.

(** ** The coding binder *)

Lemma codingAllCorrect_spec (env : Room.Env) (st : Room.State) :
  Room.codingAllCorrect env st = true
  <-> Room.codingCases env <> []
      /\ forall c, c ∈ Room.codingCases env ->
           Room.codingAnswers st !! CodingCase.id c = Some (CodingCase.correct c).
Proof.
  unfold Room.codingAllCorrect. rewrite andb_true_iff, forallb_forall. split.
  - intros [Hlen Hall]. split.
    + intros E. rewrite E in Hlen. discriminate.
    + intros c Hc. apply list_elem_of_In in Hc.
      exact (proj1 (bool_decide_eq_true _) (Hall c Hc)).
  - intros [Hne Hall]. split.
    + destruct (Room.codingCases env); [contradiction|reflexivity].
    + intros c Hc. apply bool_decide_eq_true, Hall, list_elem_of_In, Hc.
Qed.

Lemma codingAllCorrect_effects (env : Room.Env) (st : Room.State) :
  Room.codingAllCorrect env (Room.effects env st) = Room.codingAllCorrect env st.
Proof. apply codingAllCorrect_answers, effects_fields. Qed.

(** [codingDone] is only ever switched on, and only in a state in which
    every case is answered correctly. *)
Lemma step_codingDone (env : Room.Env) (st : Room.State) (a : Room.Action) :
  (Room.codingDone st = true -> Room.codingDone (Room.step env st a).1 = true)
  /\ (Room.codingDone (Room.step env st a).1 = true ->
      Room.codingDone st = true
      \/ Room.codingAllCorrect env (Room.step env st a).1 = true).
Proof.
  rewrite step_state, codingAllCorrect_effects. unfold Room.effects.
  destruct (Room.codingAllCorrect env (Room.dispatch env st a).1) eqn:Hall;
    destruct (Room.codingOpen (Room.dispatch env st a).1); simpl;
    rewrite ?dispatch_codingDone; auto.
Qed.

Lemma run_codingDone_mono (env : Room.Env) (acts : list Room.Action) :
  forall st, Room.codingDone st = true ->
             Room.codingDone (Room.run env st acts).1 = true.
Proof.
  induction acts as [|a acts IH]; intros st Hd; [exact Hd|].
  rewrite run_cons_room. simpl. apply IH. now apply step_codingDone.
Qed.

Lemma run_codingDone_origin (env : Room.Env) (acts : list Room.Action) :
  forall st,
    Room.codingDone (Room.run env st acts).1 = true ->
    Room.codingDone st = true
    \/ exists acts1 acts2,
        acts = (acts1 ++ acts2)%list
        /\ Room.codingAllCorrect env (Room.run env st acts1).1 = true.
Proof.
  induction acts as [|a acts IH]; intros st Hd; [left; exact Hd|].
  rewrite run_cons_room in Hd. simpl in Hd.
  destruct (IH _ Hd) as [Hd1|(acts1 & acts2 & -> & Hall)].
  - destruct (proj2 (step_codingDone env st a) Hd1) as [Hd0|Hall]; [now left|].
    right. exists [a], acts. split; [reflexivity|].
    rewrite run_cons_room. exact Hall.
  - right. exists (a :: acts1), acts2. split; [reflexivity|].
    rewrite run_cons_room. exact Hall.
Qed.

(** C7, as the code has it: with every case answered correctly the binder
    is done; the first case is then answered wrongly and the binder is
    still done, although not every last answer is the correct one. *)
Lemma C7_done_despite_wrong_last_answer :
  let st := (Room.run env_unshuffled Room.init binder_solved_then_wrong).1 in
  Room.codingDone st = true
  /\ Room.codingAnswers st !! "A1" = Some "99203 + J06.9"
  /\ Room.codingAllCorrect env_unshuffled st = false
  /\ ~ (forall c, c ∈ Room.codingCases env_unshuffled ->
          Room.codingAnswers st !! CodingCase.id c = Some (CodingCase.correct c)).
Proof.
  intros st.
  assert (Hall : Room.codingAllCorrect env_unshuffled st = false)
    by (vm_compute; reflexivity).
  split; [vm_compute; reflexivity|]. split; [vm_compute; reflexivity|].
  split; [exact Hall|].
  intros H. assert (Room.codingAllCorrect env_unshuffled st = true); [|congruence].
  apply codingAllCorrect_spec. split; [|exact H]. discriminate.
Qed.

(** C7 (amended): the binder is done exactly when, at some moment of the
    session so far, every case's stored answer was its correct answer (an
    answer given again for a case replaces the stored one and touches no
    other case); once done it stays done whatever is answered later. *)
Theorem C7_binder_done_latch (env : Room.Env) (acts : list Room.Action) :
  let st := (Room.run env Room.init acts).1 in
  (Room.codingDone st = true
   <-> exists acts1 acts2,
        acts = (acts1 ++ acts2)%list
        /\ Room.codingCases env <> []
        /\ forall c, c ∈ Room.codingCases env ->
             Room.codingAnswers (Room.run env Room.init acts1).1 !! CodingCase.id c
             = Some (CodingCase.correct c))
  /\ (forall more : list Room.Action,
        Room.codingDone st = true ->
        Room.codingDone (Room.run env st more).1 = true)
  /\ (forall (c : CodingCase.t) (ch : string) (id : string),
        Room.codingAnswers (Room.selectCoding c ch st) !! CodingCase.id c = Some ch
        /\ (id <> CodingCase.id c ->
            Room.codingAnswers (Room.selectCoding c ch st) !! id
            = Room.codingAnswers st !! id)).
Proof.
  intros st. split; [|split].
  - split.
    + intros Hd. destruct (run_codingDone_origin env acts _ Hd)
        as [H0|(acts1 & acts2 & E & Hall)]; [discriminate|].
      exists acts1, acts2. split; [exact E|]. now apply codingAllCorrect_spec.
    + intros (acts1 & acts2 & E & Hne & Hall).
      unfold st. rewrite E, run_app_room. apply run_codingDone_mono.
      apply (inv_coding env _ (room_inv_run env acts1 _ (room_inv_init env))).
      apply codingAllCorrect_spec. auto.
  - intros more Hd. now apply run_codingDone_mono.
  - intros c ch id. unfold Room.selectCoding. simpl.
    rewrite lookup_insert_eq. split; [reflexivity|].
    intros Hne. now rewrite lookup_insert_ne.
Qed.

Lemma C7_binder_done_latch_witness :
  Room.codingDone (Room.run env_unshuffled Room.init binder_solved).1 = true
  /\ Room.codingDone
       (Room.run env_unshuffled
          (Room.run env_unshuffled Room.init binder_solved).1
          [Room.SelectCoding 0 "99203 + J06.9"]).1 = true.
Proof.
  destruct (C7_binder_done_latch env_unshuffled binder_solved)
    as (Hiff & Hmono & _).
  assert (Hd : Room.codingDone (Room.run env_unshuffled Room.init binder_solved).1
               = true).
  { apply Hiff. exists binder_solved, []. split; [now rewrite app_nil_r|].
    apply codingAllCorrect_spec. vm_compute. reflexivity. }
  split; [exact Hd|]. apply Hmono. exact Hd.
Defined.

(** ** Stage completion callbacks *)

Example trim_samples :
  JS.trim "  Ada Lovelace " = "Ada Lovelace" /\ JS.trim "   " = "".
Proof. vm_compute. auto. Qed.

(** A name made of a no-break space (U+00A0), an ideographic space
    (U+3000) and a byte order mark (U+FEFF) is blank: Finish is disabled. *)
Example trim_unicode_blank :
  let blank :=
    string_of_list_ascii
      (ascii_of_nat <$> [194; 160; 227; 128; 128; 32; 239; 187; 191]) in
  JS.trim blank = ""
  /\ Certificate.dispatch {| Certificate.name := blank |} Certificate.ClickFinish
     = ({| Certificate.name := blank |}, []).
Proof. vm_compute. auto. Qed.

(** White space inside a name is kept, also beside other multi-byte
    characters. *)
Example trim_unicode_inside :
  let nbsp := string_of_list_ascii (ascii_of_nat <$> [194; 160]) in
  JS.trim (nbsp +:+ "Zoë" +:+ nbsp +:+ "Müller " +:+ nbsp)
  = "Zoë" +:+ nbsp +:+ "Müller".
Proof. vm_compute. reflexivity. Qed.

(** C3, as the code has it: with the name "Ada Lovelace" typed in, Finish
    calls [onDone] with the click event and nothing else; the name is not
    among the arguments. *)
Lemma C3_certificate_callback_without_name :
  let st := (Certificate.dispatch Certificate.init
               (Certificate.TypeName "Ada Lovelace")).1 in
  Certificate.name st = "Ada Lovelace"
  /\ (Certificate.dispatch st Certificate.ClickFinish).2
     = [Invoke onDone [JS.VClickEvent]]
  /\ (Certificate.dispatch st Certificate.ClickFinish).2
     <> [Invoke onDone [JS.VString "Ada Lovelace"]].
Proof. vm_compute. repeat split; discriminate. Qed.

(** C3 (amended): the Certificate stage completes through [onDone], whose
    only argument is the click event and never the captured name (with a
    blank name the button is disabled and nothing is called); [App] moves
    to the done stage whatever the arguments and keeps no name.  The Quiz
    stage completes through [onComplete] carrying the numeric score,
    which [App] stores before moving to the room. *)
Theorem C3_completion_payloads :
  (forall st : Certificate.State,
      JS.trim (Certificate.name st) <> "" ->
      Certificate.dispatch st Certificate.ClickFinish
      = (st, [Invoke onDone [JS.VClickEvent]]))
  /\ (forall st : Certificate.State,
        JS.trim (Certificate.name st) = "" ->
        Certificate.dispatch st Certificate.ClickFinish = (st, []))
  /\ (forall (app : App.State) (args : list JS.Value),
        App.stage app = App.certificate ->
        App.handle app onDone args
        = {| App.stage := App.done; App.score := App.score app |})
  /\ (forall st : Quiz.State,
        Quiz.step st = 5 ->
        Quiz.dispatch st Quiz.ClickEnter
        = (st, [Invoke onComplete [JS.VNumber (Quiz.score st)]]))
  /\ (forall (app : App.State) (finalScore : nat),
        App.stage app = App.quiz ->
        App.handle app onComplete [JS.VNumber finalScore]
        = {| App.stage := App.room; App.score := finalScore |}).
Proof.
  split; [|split; [|split; [|split]]].
  - intros st Hne. unfold Certificate.dispatch, JS.falsy.
    now rewrite bool_decide_eq_false_2.
  - intros st He. unfold Certificate.dispatch, JS.falsy.
    now rewrite bool_decide_eq_true_2.
  - intros app args Hs. reflexivity.
  - intros st Hs. unfold Quiz.dispatch. now rewrite Hs.
  - intros app n Hs. reflexivity.
Qed.

Lemma C3_completion_payloads_witness :
  Certificate.dispatch {| Certificate.name := " Ada Lovelace" |} Certificate.ClickFinish
  = ({| Certificate.name := " Ada Lovelace" |}, [Invoke onDone [JS.VClickEvent]])
  /\ App.handle {| App.stage := App.quiz; App.score := 0 |} onComplete [JS.VNumber 3]
     = {| App.stage := App.room; App.score := 3 |}.
Proof.
  destruct C3_completion_payloads as (Hcert & _ & _ & _ & Happ). split.
  - apply Hcert. vm_compute. discriminate.
  - apply Happ. reflexivity.
Defined.

(* ===================================================================== *)
(** * Further properties of the code *)
(* ===================================================================== *)

(** ** The shuffle *)

Lemma swap_length {T} (a : list T) (x y : nat) : length (JS.swap a x y) = length a.
Proof. apply Permutation_length, swap_perm. Qed.

Lemma shuffle_loop_draws {T} (rnd : JS.Rand) (i : nat) :
  forall (a : list T) n, (JS.shuffle_loop rnd i a n).2 = n + i.
Proof.
  induction i as [|i IH]; intros a n; simpl; [lia|]. rewrite IH. lia.
Qed.

(** X1: whatever the random source, [shuffle] returns a permutation of
    its input (nothing lost, nothing repeated, same length) and makes one
    random draw for every position but the first. *)
Theorem X1_shuffle_permutes {T} (rnd : JS.Rand) (arr : list T) (n : nat) :
  (JS.shuffle rnd arr n).1 ≡ₚ arr
  /\ length (JS.shuffle rnd arr n).1 = length arr
  /\ (JS.shuffle rnd arr n).2 = n + (length arr - 1).
Proof.
  split; [apply shuffle_loop_perm|]. split.
  - apply Permutation_length, shuffle_loop_perm.
  - apply shuffle_loop_draws.
Qed.

(** ** Moving the items of the reorder task *)

Lemma swap_swap {T} (a : list T) (x y : nat) :
  x < length a -> y < length a -> JS.swap (JS.swap a x y) x y = a.
Proof.
  intros Hx Hy. unfold JS.swap.
  destruct (lookup_lt_is_Some_2 a x Hx) as [ax Eax].
  destruct (lookup_lt_is_Some_2 a y Hy) as [ay Eay].
  rewrite Eay, Eax.
  assert (Ly : (<[y:=ax]> (<[x:=ay]> a)) !! y = Some ax)
    by (apply list_lookup_insert_eq; rewrite length_insert; exact Hy).
  assert (Lx : (<[y:=ax]> (<[x:=ay]> a)) !! x = Some (if decide (x = y) then ax else ay)).
  { destruct (decide (x = y)) as [->|Hne]; [exact Ly|].
    rewrite list_lookup_insert_ne by congruence.
    now apply list_lookup_insert_eq. }
  rewrite Ly, Lx. apply list_eq. intros i.
  destruct (decide (i = y)) as [->|Hiy].
  - rewrite list_lookup_insert_eq by (rewrite !length_insert; exact Hy).
    destruct (decide (x = y)) as [->|Hne]; congruence.
  - rewrite list_lookup_insert_ne by congruence.
    destruct (decide (i = x)) as [->|Hix].
    + rewrite list_lookup_insert_eq by (rewrite !length_insert; exact Hx).
      congruence.
    + rewrite !list_lookup_insert_ne by congruence. reflexivity.
Qed.

(** X3: the move buttons never lose or repeat an item: after [moveUp] or
    [moveDown] the order is a permutation of the order before, and step,
    score and selection are untouched; "up" on the first item and "down"
    on the last item change nothing. *)
Theorem X3_moves_permute (st : Quiz.State) (idx : nat) :
  (Quiz.order (Quiz.moveUp idx st) ≡ₚ Quiz.order st
   /\ Quiz.order (Quiz.moveDown idx st) ≡ₚ Quiz.order st)
  /\ (Quiz.step (Quiz.moveUp idx st) = Quiz.step st
      /\ Quiz.selected (Quiz.moveUp idx st) = Quiz.selected st
      /\ Quiz.step (Quiz.moveDown idx st) = Quiz.step st
      /\ Quiz.selected (Quiz.moveDown idx st) = Quiz.selected st)
  /\ Quiz.moveUp 0 st = st
  /\ Quiz.moveDown (length (Quiz.order st) - 1) st = st.
Proof.
  split; [|split; [|split]].
  - unfold Quiz.moveUp, Quiz.moveDown.
    split; case_match; simpl; try reflexivity; apply swap_perm.
  - unfold Quiz.moveUp, Quiz.moveDown.
    repeat split; case_match; reflexivity.
  - reflexivity.
  - unfold Quiz.moveDown. now rewrite Nat.eqb_refl.
Qed.

(** X4: a move is undone by the opposite move on the neighbouring
    position: for an item that is not the first, "up" on it followed by
    "down" on the position above restores the state, and so does "down"
    followed by "up". *)
Theorem X4_moves_undo (st : Quiz.State) (k : nat) :
  0 < k ->
  k < length (Quiz.order st) ->
  Quiz.moveDown (k - 1) (Quiz.moveUp k st) = st
  /\ Quiz.moveUp k (Quiz.moveDown (k - 1) st) = st.
Proof.
  intros H0 Hk. destruct st as [s sc sel ord]. simpl in Hk.
  assert (Ek : (k =? 0) = false) by (apply Nat.eqb_neq; lia).
  assert (El : forall l : list string,
             length l = length ord -> (k - 1 =? length l - 1) = false)
    by (intros l ->; apply Nat.eqb_neq; lia).
  assert (E1 : k - 1 + 1 = k) by lia.
  unfold Quiz.moveUp, Quiz.moveDown. simpl. rewrite Ek. simpl.
  rewrite (El _ (swap_length _ _ _)), (El ord eq_refl). simpl.
  rewrite E1, swap_swap by lia. auto.
Qed.

Lemma X4_moves_undo_witness :
  Quiz.moveDown 1 (Quiz.moveUp 2 (Quiz.init Quiz.CORRECT_ORDER))
  = Quiz.init Quiz.CORRECT_ORDER.
Proof.
  apply (X4_moves_undo (Quiz.init Quiz.CORRECT_ORDER) 2); simpl; lia.
Defined.

(** ** The order of the reorder task over a session *)

Lemma quiz_dispatch_order (st : Quiz.State) (a : Quiz.Action) :
  Quiz.order (Quiz.dispatch st a).1 ≡ₚ Quiz.order st.
Proof.
  unfold Quiz.dispatch, Quiz.submitMCQ, Quiz.moveUp, Quiz.moveDown,
    Quiz.submitReorder.
  destruct a; repeat case_match; simpl; try reflexivity; apply swap_perm.
Qed.

Lemma quiz_run_order (acts : list Quiz.Action) :
  forall st, Quiz.order (Quiz.run st acts).1 ≡ₚ Quiz.order st.
Proof.
  induction acts as [|a acts IH]; intros st; [reflexivity|].
  rewrite run_cons. simpl. rewrite IH. apply quiz_dispatch_order.
Qed.

Lemma randomizedStart_perm (rnd : JS.Rand) (n : nat) :
  (Quiz.randomizedStart rnd n).1 ≡ₚ Quiz.CORRECT_ORDER.
Proof.
  unfold Quiz.randomizedStart.
  pose proof (shuffle_perm rnd Quiz.CORRECT_ORDER n) as H1.
  destruct (JS.shuffle rnd Quiz.CORRECT_ORDER n) as [start n1].
  case_bool_decide; [apply shuffle_perm|exact H1].
Qed.

Lemma CORRECT_ORDER_NoDup : NoDup Quiz.CORRECT_ORDER.
Proof. apply (bool_decide_unpack _). vm_compute. exact I. Qed.

(** X5: whatever the random source and whatever the learner does, the
    working order of the reorder task is a permutation of [CORRECT_ORDER]:
    always the same five items, none twice. *)
Theorem X5_order_is_permutation (rnd : JS.Rand) (n : nat) (acts : list Quiz.Action) :
  let st := (Quiz.run (Quiz.mount rnd n) acts).1 in
  Quiz.order st ≡ₚ Quiz.CORRECT_ORDER
  /\ length (Quiz.order st) = 5
  /\ NoDup (Quiz.order st).
Proof.
  intros st.
  assert (Hp : Quiz.order st ≡ₚ Quiz.CORRECT_ORDER).
  { unfold st. rewrite quiz_run_order. unfold Quiz.mount.
    destruct (JS.shuffle rnd _ n) as [x n1]. simpl. apply randomizedStart_perm. }
  split; [exact Hp|]. split.
  - now rewrite Hp.
  - rewrite Hp. exact CORRECT_ORDER_NoDup.
Qed.

Lemma swap_cons_S {T} (x : T) (l : list T) (i j : nat) :
  JS.swap (x :: l) (S i) (S j) = x :: JS.swap l i j.
Proof.
  unfold JS.swap. simpl.
  destruct (l !! j); [|reflexivity]. destruct (l !! i); reflexivity.
Qed.

Lemma apply_down_cons (x : string) (idxs : list nat) :
  forall l, apply_down (x :: l) (S <$> idxs) = x :: apply_down l idxs.
Proof.
  induction idxs as [|i idxs IH]; intros l; [reflexivity|].
  simpl. rewrite swap_cons_S. apply IH.
Qed.

Lemma apply_down_length (idxs : list nat) :
  forall l, length (apply_down l idxs) = length l.
Proof.
  induction idxs as [|i idxs IH]; intros l; [reflexivity|].
  simpl. rewrite IH. apply swap_length.
Qed.

(** Every permutation is reached by exchanging neighbours. *)
Lemma perm_by_neighbours (l l' : list string) :
  l ≡ₚ l' ->
  exists idxs, Forall (fun i => i + 1 < length l) idxs /\ apply_down l idxs = l'.
Proof.
  induction 1 as [|x l l' _ IH|x y l|l l' l'' H1 IH1 H2 IH2].
  - exists []. split; [constructor|reflexivity].
  - destruct IH as (idxs & HF & E). exists (S <$> idxs). split.
    + apply Forall_fmap. eapply Forall_impl; [exact HF|]. simpl. intros; lia.
    + rewrite apply_down_cons. now rewrite E.
  - exists [0]. split; [|reflexivity].
    apply Forall_cons. split; [simpl; lia|apply Forall_nil_2].
  - destruct IH1 as (i1 & F1 & E1). destruct IH2 as (i2 & F2 & E2).
    exists (i1 ++ i2)%list. split.
    + apply Forall_app. split; [exact F1|].
      rewrite (Permutation_length H1). exact F2.
    + unfold apply_down in *. now rewrite foldl_app, E1.
Qed.

Lemma quiz_run_app (acts1 acts2 : list Quiz.Action) :
  forall st,
    Quiz.run st (acts1 ++ acts2)
    = ((Quiz.run (Quiz.run st acts1).1 acts2).1,
       ((Quiz.run st acts1).2 ++ (Quiz.run (Quiz.run st acts1).1 acts2).2)%list).
Proof.
  induction acts1 as [|a acts1 IH]; intros st.
  - simpl. now destruct (Quiz.run st acts2).
  - rewrite <- app_comm_cons, !run_cons, IH. simpl. now rewrite app_assoc.
Qed.

Lemma run_clicks_down (idxs : list nat) :
  forall (sc : nat) (sel : option string) (ord : list string),
    Forall (fun i => i + 1 < length ord) idxs ->
    Quiz.run {| Quiz.step := 4; Quiz.score := sc; Quiz.selected := sel;
                Quiz.order := ord |} (clicks_down idxs)
    = ({| Quiz.step := 4; Quiz.score := sc; Quiz.selected := sel;
          Quiz.order := apply_down ord idxs |}, []).
Proof.
  induction idxs as [|i idxs IH]; intros sc sel ord HF; [reflexivity|].
  apply Forall_cons in HF as [Hi HF].
  unfold clicks_down. rewrite fmap_cons, run_cons.
  assert (E : Quiz.dispatch
                {| Quiz.step := 4; Quiz.score := sc; Quiz.selected := sel;
                   Quiz.order := ord |} (Quiz.ClickDown i)
              = ({| Quiz.step := 4; Quiz.score := sc; Quiz.selected := sel;
                    Quiz.order := JS.swap ord i (i + 1) |}, [])).
  { unfold Quiz.dispatch, Quiz.moveDown. simpl.
    destruct (Nat.ltb_spec i (length ord)) as [_|]; [|lia].
    destruct (Nat.eqb_spec i (length ord - 1)) as [|_]; [lia|]. reflexivity. }
  rewrite E. simpl. fold (clicks_down idxs).
  rewrite IH by (rewrite swap_length; exact HF). reflexivity.
Qed.

(** X6: the reorder task can always be solved with the arrow buttons: on
    the reorder page, from any order that is a permutation of
    [CORRECT_ORDER], some sequence of "down" clicks followed by "Finish
    Quiz" and "Enter" reaches the summary page with the correct order and
    reports the unchanged score. *)
Theorem X6_reorder_solvable (st : Quiz.State) :
  Quiz.step st = 4 ->
  Quiz.order st ≡ₚ Quiz.CORRECT_ORDER ->
  exists idxs : list nat,
    Quiz.run st (clicks_down idxs ++ [Quiz.ClickFinishQuiz; Quiz.ClickEnter])
    = ({| Quiz.step := 5; Quiz.score := Quiz.score st;
          Quiz.selected := Quiz.selected st; Quiz.order := Quiz.CORRECT_ORDER |},
       [Invoke onComplete [JS.VNumber (Quiz.score st)]]).
Proof.
  intros Hs Hp. destruct st as [s sc sel ord]. simpl in *. subst s.
  destruct (perm_by_neighbours _ _ Hp) as (idxs & HF & E).
  exists idxs. rewrite quiz_run_app, run_clicks_down by exact HF.
  rewrite E. vm_compute. reflexivity.
Qed.

Lemma X6_reorder_solvable_witness :
  exists idxs : list nat,
    Quiz.run
      {| Quiz.step := 4; Quiz.score := 3; Quiz.selected := None;
         Quiz.order :=
           [ "Confirm authorization/permission is valid.";
             "Verify patient identity (two identifiers).";
             "Clarify request scope & preferred delivery method.";
             "Process request (fees/timelines per policy).";
             "Log disclosure per policy." ] |}
      (clicks_down idxs ++ [Quiz.ClickFinishQuiz; Quiz.ClickEnter])
    = ({| Quiz.step := 5; Quiz.score := 3; Quiz.selected := None;
          Quiz.order := Quiz.CORRECT_ORDER |},
       [Invoke onComplete [JS.VNumber 3]]).
Proof.
  apply (X6_reorder_solvable
           {| Quiz.step := 4; Quiz.score := 3; Quiz.selected := None;
              Quiz.order :=
                [ "Confirm authorization/permission is valid.";
                  "Verify patient identity (two identifiers).";
                  "Clarify request scope & preferred delivery method.";
                  "Process request (fees/timelines per policy).";
                  "Log disclosure per policy." ] |}).
  - reflexivity.
  - apply perm_swap.
Defined.

(** X7: whatever the learner does, the score never exceeds the number of
    questions answered so far, hence never 4, and the quiz never goes
    past the summary page. *)
Theorem X7_score_bounded (start : list string) (acts : list Quiz.Action) :
  let st := (Quiz.run (Quiz.init start) acts).1 in
  Quiz.score st <= Nat.min (Quiz.step st) 4
  /\ Quiz.score st <= 4
  /\ Quiz.step st <= 5.
Proof.
  intros st.
  destruct (quiz_run acts _ (quiz_inv_init start))
    as ([Hle _] & Hsc & Hsub & _).
  fold st in Hle, Hsc, Hsub. simpl in Hsc, Hsub.
  assert (Hlen : length (Quiz.submissions (Quiz.init start) acts)
                 = Nat.min (Quiz.step st) 4).
  { rewrite <- (length_fmap fst), Hsub, length_seq. lia. }
  assert (Hcc : correct_count (Quiz.submissions (Quiz.init start) acts)
                <= length (Quiz.submissions (Quiz.init start) acts)).
  { unfold correct_count. apply List.filter_length_le. }
  lia.
Qed.

(** ** Ticking charts *)

(** X8: a chart checkbox flips the membership of its own chart and of no
    other; it changes nothing but the selection; and ticking then
    unticking a chart that was not selected restores the selection as it
    was. *)
Theorem X8_toggle_flips_one (id x : string) (st : Room.State) :
  (id ∈ Room.auditSelected (Room.toggleAudit id st)
   <-> id ∉ Room.auditSelected st)
  /\ (x <> id ->
      (x ∈ Room.auditSelected (Room.toggleAudit id st)
       <-> x ∈ Room.auditSelected st))
  /\ (id ∉ Room.auditSelected st ->
      Room.toggleAudit id (Room.toggleAudit id st) = st)
  /\ Room.foundIssues (Room.toggleAudit id st) = Room.foundIssues st
  /\ Room.auditDone (Room.toggleAudit id st) = Room.auditDone st.
Proof.
  unfold Room.toggleAudit. simpl. split; [|split; [|split; [|split]]];
    try reflexivity.
  - case_bool_decide as Hin.
    + rewrite list_elem_of_filter. tauto.
    + rewrite elem_of_app, list_elem_of_singleton. tauto.
  - intros Hne. case_bool_decide as Hin.
    + rewrite list_elem_of_filter. tauto.
    + rewrite elem_of_app, list_elem_of_singleton. tauto.
  - intros Hnin. rewrite (bool_decide_eq_false_2 _ Hnin).
    rewrite bool_decide_eq_true_2
      by (rewrite elem_of_app, list_elem_of_singleton; auto).
    rewrite filter_app, filter_cons_False, filter_nil, app_nil_r by tauto.
    assert (E : filter (fun y => y <> id) (Room.auditSelected st)
                = Room.auditSelected st).
    { clear -Hnin. induction (Room.auditSelected st) as [|y l IH];
        [reflexivity|].
      rewrite filter_cons_True
        by (intros ->; apply Hnin, list_elem_of_here).
      f_equal. apply IH. intros H. apply Hnin. now apply list_elem_of_further. }
    rewrite E. now destruct st.
Qed.

Lemma X8_toggle_flips_one_witness :
  Room.toggleAudit "3" (Room.toggleAudit "3" Room.init) = Room.init.
Proof.
  destruct (X8_toggle_flips_one "3" "5" Room.init) as (_ & _ & H & _).
  apply H. simpl. apply not_elem_of_nil.
Defined.

(** ** The flow of the room *)

Lemma chartDocs_pages (d : ChartDoc.t) :
  d ∈ Room.chartDocs -> 0 < length (ChartDoc.pages d).
Proof.
  intros Hd. unfold Room.chartDocs in Hd.
  repeat (apply elem_of_cons in Hd as [->|Hd]; [simpl; lia|]).
  inversion Hd.
Qed.

Lemma room_flow_init : room_flow Room.init.
Proof.
  split; simpl; try lia; try discriminate; auto 10.
Qed.

Ltac reflect_hyps :=
  repeat match goal with
    | H : (_ && _) = true |- _ => apply andb_true_iff in H as [? ?]
    | H : negb _ = true |- _ => apply negb_true_iff in H
    | H : negb _ = false |- _ => apply negb_false_iff in H
    | H : (_ <? _) = true |- _ => apply Nat.ltb_lt in H
    | H : (_ <? _) = false |- _ => apply Nat.ltb_ge in H
    | H : (_ =? _) = true |- _ => apply Nat.eqb_eq in H
    | H : (_ =? _) = false |- _ => apply Nat.eqb_neq in H
    | H : bool_decide _ = true |- _ => apply bool_decide_eq_true in H
    | H : bool_decide _ = false |- _ => apply bool_decide_eq_false in H
    end.

Ltac room_proj :=
  cbn [fst snd Room.callAnswered Room.callComplete Room.codingOpen
       Room.auditOpen Room.codingDone Room.auditDone Room.callIndex
       Room.callSelected Room.codingAnswers Room.auditSelected Room.openDoc
       Room.docPage Room.pageSelections Room.foundIssues
       Room.setCallAnswered Room.setCallComplete Room.setCodingOpen
       Room.setAuditOpen Room.setCodingDone Room.setAuditDone
       Room.setCallIndex Room.setCallSelected Room.setCodingAnswers
       Room.setAuditSelected Room.setOpenDoc Room.setDocPage
       Room.setPageSelections Room.setFoundIssues] in *.

Ltac use_flow :=
  repeat match goal with
    | F : ?x = ?x -> _ |- _ => specialize (F eq_refl)
    | F : forall d, Some ?t = Some d -> _ |- _ => specialize (F _ eq_refl)
    | F : _ /\ _ |- _ => destruct F
    | F : exists _, _ |- _ => destruct F
    end.

Lemma room_flow_dispatch (env : Room.Env) (st : Room.State) (a : Room.Action) :
  room_flow st -> room_flow (Room.dispatch env st a).1.
Proof.
  intros [F1 F2 F3 F4 F5 F6].
  destruct st as [ans comp cO aO cD aD ci csel cA aS oD dP pS fI].
  room_proj.
  destruct a; unfold Room.dispatch, Room.submitCall, Room.handleAuditCheck,
    Room.handleAnswerPhone, Room.toggleAudit, Room.selectCoding,
    Room.selectOption, JS.falsy; room_proj;
    repeat case_match; room_proj; reflect_hyps;
    change (length Room.callSteps - 1) with 2 in *; subst;
    try (split; room_proj; solve [auto]).
  all: split; room_proj; intros; simplify_eq; use_flow; simplify_eq;
    try solve [eauto 4 | lia | repeat split; (reflexivity || assumption || lia)].
  - split; [lia|]. assert (ci = 2) as -> by lia.
    eexists. split; [eassumption|]. apply dec_stable. assumption.
  - split; [eapply list_elem_of_lookup_2; eassumption|].
    apply chartDocs_pages. eapply list_elem_of_lookup_2; eassumption.
Qed.

Lemma room_flow_effects (env : Room.Env) (st : Room.State) :
  room_flow st -> room_flow (Room.effects env st).
Proof.
  intros [F1 F2 F3 F4 F5 F6]. unfold Room.effects.
  destruct (Room.codingAllCorrect env st && Room.codingOpen st) eqn:E;
    [|now split].
  apply andb_true_iff in E as [_ Ho].
  split; room_proj; auto.
  intros Hc. destruct (F5 Hc) as (Ho' & _). congruence.
Qed.

Lemma room_flow_run (env : Room.Env) (acts : list Room.Action) :
  forall st, room_flow st -> room_flow (Room.run env st acts).1.
Proof.
  induction acts as [|a acts IH]; intros st Hf; [exact Hf|].
  rewrite run_cons_room. cbn [fst]. apply IH. rewrite step_state.
  now apply room_flow_effects, room_flow_dispatch.
Qed.

Lemma effects_closed (env : Room.Env) (st : Room.State) :
  Room.codingOpen st = false -> Room.effects env st = st.
Proof. intros H. unfold Room.effects. now rewrite H, andb_false_r. Qed.

Lemma effects_idem (env : Room.Env) (st : Room.State) :
  Room.effects env (Room.effects env st) = Room.effects env st.
Proof.
  unfold Room.effects at 2.
  destruct (Room.codingAllCorrect env st && Room.codingOpen st) eqn:E.
  - unfold Room.effects.
    rewrite (codingAllCorrect_answers env st (Room.setCodingDone true st) eq_refl).
    cbn [Room.codingOpen Room.setCodingDone]. rewrite E. reflexivity.
  - unfold Room.effects. now rewrite E.
Qed.

(** The effects have nothing left to do in a state a run has reached. *)
Lemma run_effects_fixed (env : Room.Env) (acts : list Room.Action) :
  Room.effects env (Room.run env Room.init acts).1
  = (Room.run env Room.init acts).1.
Proof.
  destruct acts as [|a acts _] using rev_ind;
    [now apply effects_closed|].
  rewrite run_app_room, run_cons_room. cbn [fst Room.run].
  rewrite step_state. apply effects_idem.
Qed.

(** X9: the binder, the audit and the document viewer are locked behind
    the phone call.  In every state reached before the call is complete
    nothing of them has been touched, and any action on them leaves the
    state as it is and emits nothing. *)
Theorem X9_tasks_locked_before_call (env : Room.Env) (acts : list Room.Action)
    (a : Room.Action) :
  let st := (Room.run env Room.init acts).1 in
  Room.callComplete st = false ->
  (Room.codingOpen st = false /\ Room.auditOpen st = false
   /\ Room.codingDone st = false /\ Room.auditDone st = false
   /\ Room.codingAnswers st = ∅ /\ Room.auditSelected st = []
   /\ Room.openDoc st = None
   /\ Room.pageSelections st = ∅ /\ Room.foundIssues st = [])
  /\ (post_call_action a = true -> Room.step env st a = (st, [])).
Proof.
  intros st Hc.
  pose proof (room_flow_run env acts _ room_flow_init) as Hf. fold st in Hf.
  pose proof (flow_locked _ Hf Hc) as HL. split; [exact HL|].
  destruct HL as (HcO & HaO & HcD & HaD & _ & _ & HoD & _).
  intros Ha.
  assert (E : Room.dispatch env st a = (st, [])).
  { destruct a; try discriminate; unfold Room.dispatch;
      rewrite ?Hc, ?HcO, ?HaO, ?HoD; reflexivity. }
  unfold Room.step. rewrite E, (effects_closed env st HcO).
  unfold Room.allTasksDone. now rewrite Hc.
Qed.

Lemma X9_tasks_locked_before_call_witness :
  Room.step env_unshuffled Room.init (Room.SelectCoding 0 "99213 + I10")
  = (Room.init, []).
Proof.
  destruct (X9_tasks_locked_before_call env_unshuffled []
              (Room.SelectCoding 0 "99213 + I10") eq_refl) as [_ H].
  apply H. reflexivity.
Defined.

(** X10: throughout a session the call step index stays within the three
    steps, so the current step always exists; a stored selection is one
    of the current step's choices (none is carried over to the next
    step); before the phone is answered nothing of the call has moved;
    and the call is complete only on the last step with its correct
    answer selected. *)
Theorem X10_call_invariants (env : Room.Env) (acts : list Room.Action) :
  let st := (Room.run env Room.init acts).1 in
  Room.callIndex st < 3
  /\ (exists cs, Room.callSteps !! Room.callIndex st = Some cs)
  /\ (forall c, Room.callSelected st = Some c ->
        exists cs, Room.callSteps !! Room.callIndex st = Some cs
                   /\ c ∈ Room.choices cs)
  /\ (Room.callAnswered st = false ->
      Room.callIndex st = 0 /\ Room.callSelected st = None
      /\ Room.callComplete st = false)
  /\ (Room.callComplete st = true ->
      Room.callIndex st = 2
      /\ exists cs, Room.callSteps !! 2 = Some cs
                    /\ Room.callSelected st = Some (Room.correct cs)).
Proof.
  intros st.
  pose proof (room_flow_run env acts _ room_flow_init) as Hf. fold st in Hf.
  destruct Hf as [F1 F2 F3 F4 _ _].
  split; [exact F1|]. split; [|auto].
  apply lookup_lt_is_Some_2. exact F1.
Qed.

Lemma X10_call_invariants_witness :
  Room.callIndex (Room.run env_unshuffled Room.init call_actions).1 = 2.
Proof.
  destruct (X10_call_invariants env_unshuffled call_actions)
    as (_ & _ & _ & _ & H).
  apply H. vm_compute. reflexivity.
Defined.

(** X11: while a document is open it is one of the sample documents and
    the page number is a page of it, so the viewer always has a page to
    show; "Prev" on the first page and "Next" on the last change
    nothing. *)
Theorem X11_page_in_range (env : Room.Env) (acts : list Room.Action)
    (d : ChartDoc.t) :
  let st := (Room.run env Room.init acts).1 in
  Room.openDoc st = Some d ->
  d ∈ Room.chartDocs
  /\ Room.docPage st < length (ChartDoc.pages d)
  /\ (exists p, ChartDoc.pages d !! Room.docPage st = Some p)
  /\ (Room.docPage st = 0 -> Room.step env st Room.ClickPrev = (st, []))
  /\ (Room.docPage st = length (ChartDoc.pages d) - 1 ->
      Room.step env st Room.ClickNext = (st, [])).
Proof.
  intros st Hd.
  pose proof (room_flow_run env acts _ room_flow_init) as Hf. fold st in Hf.
  destruct (flow_page _ Hf d Hd) as [Hin Hlt].
  split; [exact Hin|]. split; [exact Hlt|].
  split; [now apply lookup_lt_is_Some_2|].
  assert (Hstay : forall a, Room.dispatch env st a = (st, []) ->
                            Room.step env st a = (st, [])).
  { intros a E. unfold Room.step. rewrite E.
    replace (Room.effects env st) with st
      by (symmetry; apply run_effects_fixed).
    destruct (Room.allTasksDone st); reflexivity. }
  split; intros Hp; apply Hstay; unfold Room.dispatch; rewrite Hd, Hp;
    now rewrite Nat.eqb_refl.
Qed.

Lemma X11_page_in_range_witness :
  Room.step env_unshuffled room_viewing_D1 Room.ClickPrev
  = (room_viewing_D1, []).
Proof.
  assert (Hd : exists d, Room.openDoc room_viewing_D1 = Some d)
    by (vm_compute; eexists; reflexivity).
  destruct Hd as [d Hd].
  destruct room_viewing_D1_open as (_ & Hp & _).
  exact (proj1 (proj2 (proj2 (proj2
           (X11_page_in_range env_unshuffled _ d Hd)))) Hp).
Defined.

(** ** The room gate *)

Lemma dispatch_flags (env : Room.Env) (st : Room.State) (a : Room.Action) :
  (Room.callComplete st = true -> Room.callComplete (Room.dispatch env st a).1 = true)
  /\ (Room.auditDone st = true -> Room.auditDone (Room.dispatch env st a).1 = true).
Proof.
  destruct a; room_cases; split; intros; reflect_hyps; congruence.
Qed.

Lemma dispatch_only_alerts (env : Room.Env) (st : Room.State) (a : Room.Action) :
  forall o, o ∈ (Room.dispatch env st a).2 -> exists msg, o = Alert msg.
Proof.
  destruct a; room_cases; intros o Ho;
    try (inversion Ho; fail);
    apply list_elem_of_singleton in Ho; eauto.
Qed.

Lemma finish_calls_app (o1 o2 : list Output) :
  finish_calls (o1 ++ o2) = finish_calls o1 + finish_calls o2.
Proof. unfold finish_calls. now rewrite filter_app, length_app. Qed.

Lemma finish_calls_dispatch (env : Room.Env) (st : Room.State) (a : Room.Action) :
  finish_calls (Room.dispatch env st a).2 = 0.
Proof.
  unfold finish_calls. rewrite filter_none; [reflexivity|].
  intros o Ho ->. apply dispatch_only_alerts in Ho as [msg Ho]. discriminate.
Qed.

Lemma effects_flags (env : Room.Env) (st : Room.State) :
  Room.callComplete (Room.effects env st) = Room.callComplete st
  /\ Room.auditDone (Room.effects env st) = Room.auditDone st
  /\ (Room.codingDone st = true -> Room.codingDone (Room.effects env st) = true).
Proof. unfold Room.effects. case_match; simpl; auto. Qed.

Lemma step_allTasksDone (env : Room.Env) (st : Room.State) (a : Room.Action) :
  Room.allTasksDone st = true -> Room.allTasksDone (Room.step env st a).1 = true.
Proof.
  unfold Room.allTasksDone. rewrite !andb_true_iff. intros [[Hc Hd] Ha].
  rewrite step_state.
  destruct (effects_flags env (Room.dispatch env st a).1) as (-> & -> & Hcd).
  destruct (dispatch_flags env st a) as [H1 H2].
  repeat split; auto. apply Hcd. now rewrite dispatch_codingDone.
Qed.

Lemma step_finish_calls (env : Room.Env) (st : Room.State) (a : Room.Action) :
  finish_calls (Room.step env st a).2
  = if Room.allTasksDone (Room.step env st a).1 && negb (Room.allTasksDone st)
    then 1 else 0.
Proof.
  rewrite step_state. unfold Room.step.
  pose proof (finish_calls_dispatch env st a) as H0.
  destruct (Room.dispatch env st a) as [st1 out]. cbn [fst snd] in *.
  rewrite finish_calls_app, H0.
  destruct (Room.allTasksDone (Room.effects env st1) && negb (Room.allTasksDone st));
    reflexivity.
Qed.

Lemma run_finish_calls (env : Room.Env) (acts : list Room.Action) :
  forall st,
    (Room.allTasksDone st = true ->
     Room.allTasksDone (Room.run env st acts).1 = true)
    /\ finish_calls (Room.run env st acts).2
       = if Room.allTasksDone (Room.run env st acts).1
            && negb (Room.allTasksDone st)
         then 1 else 0.
Proof.
  induction acts as [|a acts IH]; intros st.
  - simpl. split; [auto|]. now destruct (Room.allTasksDone st).
  - rewrite run_cons_room. cbn [fst snd].
    destruct (IH (Room.step env st a).1) as [Hm Hc].
    pose proof (step_allTasksDone env st a) as Hs.
    split; [auto|].
    rewrite finish_calls_app, Hc, step_finish_calls.
    destruct (Room.allTasksDone st) eqn:E0.
    + rewrite (Hs eq_refl), (Hm (Hs eq_refl)). reflexivity.
    + destruct (Room.allTasksDone (Room.step env st a).1) eqn:E1.
      * rewrite (Hm eq_refl). reflexivity.
      * simpl. rewrite andb_true_r.
        now destruct (Room.allTasksDone (Room.run env _ acts).1).
Qed.

(** X12: the room gate opens once.  Over any session [onFinish] has been
    called exactly once if the call, the binder and the audit are all
    done and not at all otherwise; once all three are done they stay done
    and no further call of [onFinish] is made; everything else the room
    emits is an alert. *)
Theorem X12_room_gate_once (env : Room.Env) (acts more : list Room.Action) :
  let r := Room.run env Room.init acts in
  finish_calls r.2 = (if Room.allTasksDone r.1 then 1 else 0)
  /\ (Room.allTasksDone r.1 = true ->
      Room.allTasksDone (Room.run env r.1 more).1 = true
      /\ finish_calls (Room.run env r.1 more).2 = 0)
  /\ (forall o, o ∈ r.2 -> o = Invoke onFinish [] \/ exists msg, o = Alert msg).
Proof.
  intros r. split; [|split].
  - unfold r. rewrite (proj2 (run_finish_calls env acts Room.init)).
    now destruct (Room.allTasksDone _).
  - intros Hd. destruct (run_finish_calls env more r.1) as [Hm Hc].
    split; [auto|]. rewrite Hc, Hd. now rewrite andb_false_r.
  - unfold r. clear r. generalize Room.init.
    induction acts as [|a acts IH]; intros st o Ho; [inversion Ho|].
    rewrite run_cons_room in Ho. cbn [snd] in Ho.
    apply elem_of_app in Ho as [Ho|Ho]; [|eauto].
    unfold Room.step in Ho.
    pose proof (dispatch_only_alerts env st a) as Hal.
    destruct (Room.dispatch env st a) as [st1 out]. cbn [fst snd] in *.
    apply elem_of_app in Ho as [Ho|Ho]; [right; auto|].
    case_match; [|inversion Ho].
    apply list_elem_of_singleton in Ho. auto.
Qed.

(** ** The radios of a page *)

(** X13: every page of the sample documents is shown three options with
    pairwise different values, whatever distractor label was drawn, and
    exactly one of them carries the page's correct value: the real issue
    when the page has one, "no issues" otherwise. *)
Theorem X13_one_correct_option (dp : ChartDoc.t * Page.t) (lbl : string) :
  dp ∈ all_pages ->
  let opts := Room.baseOptions dp.1 (Page.id dp.2) lbl in
  length opts = 3
  /\ NoDup (DocOption.value <$> opts)
  /\ (forall k opt, opts !! k = Some opt ->
        (DocOption.value opt = Room.correctValue dp.1 (Page.id dp.2)
         <-> k = match Room.realIssue dp.1 (Page.id dp.2) with
                 | Some _ => 1
                 | None => 0
                 end)).
Proof.
  intros Hdp opts. split; [|split].
  - unfold opts, Room.baseOptions. now destruct (Room.realOption _ _).
  - apply all_pages_cases in Hdp. unfold all_pages in Hdp. cbn in Hdp.
    unfold opts.
    repeat (apply Exists_cons in Hdp as [->|Hdp];
            [cbn; apply (bool_decide_unpack _); vm_compute; exact I|]).
    inversion Hdp.
  - intros k opt Hk. now apply (baseOptions_correct dp lbl).
Qed.

Lemma X13_one_correct_option_witness :
  exists dp, all_pages !! 4 = Some dp
             /\ length (Room.baseOptions dp.1 (Page.id dp.2) "Wrong MRN") = 3.
Proof.
  destruct (all_pages !! 4) as [dp|] eqn:E; [|vm_compute in E; discriminate].
  exists dp. split; [reflexivity|].
  apply (X13_one_correct_option dp "Wrong MRN").
  eapply list_elem_of_lookup_2, E.
Defined.

(** X14: the distractor label shown on a page is always one of
    [DISTRACTOR_POOL] and never the label of the page's real issue,
    whatever the document, the page and the random source. *)
Theorem X14_distractor_from_pool (rnd : JS.Rand) (n : nat) (d : ChartDoc.t)
    (pageId : string) :
  Room.distractorLabel rnd n d pageId ∈ Room.DISTRACTOR_POOL
  /\ (forall i, Room.realIssue d pageId = Some i ->
        Room.distractorLabel rnd n d pageId <> Issue.label i).
Proof.
  unfold Room.distractorLabel.
  set (P := fun l : string => Some l <> Issue.label <$> Room.realIssue d pageId).
  pose proof (shuffle_perm rnd (filter P Room.DISTRACTOR_POOL) n) as Hp.
  destruct ((JS.shuffle rnd (filter P Room.DISTRACTOR_POOL) n).1 !! 0)
    as [l|] eqn:E.
  - assert (Hl : l ∈ filter P Room.DISTRACTOR_POOL).
    { rewrite <- Hp. eapply list_elem_of_lookup_2, E. }
    apply list_elem_of_filter in Hl as [HP Hin].
    assert (Hne : l <> "").
    { intros ->. unfold Room.DISTRACTOR_POOL in Hin.
      repeat (apply elem_of_cons in Hin as [Hin|Hin]; [discriminate|]).
      inversion Hin. }
    rewrite (bool_decide_eq_false_2 _ Hne). split; [exact Hin|].
    intros i Hi ->. apply HP. now rewrite Hi.
  - exfalso.
    assert (Hnil : filter P Room.DISTRACTOR_POOL = []).
    { apply Permutation_nil_r. rewrite <- Hp.
      destruct (JS.shuffle rnd _ n).1; [reflexivity|discriminate]. }
    assert (H1 : ~ P "Wrong MRN").
    { intros H. eapply (filter_nil_not_elem_of P _ "Wrong MRN" Hnil H).
      unfold Room.DISTRACTOR_POOL. set_solver. }
    assert (H2 : ~ P "Wrong patient name").
    { intros H. eapply (filter_nil_not_elem_of P _ "Wrong patient name" Hnil H).
      unfold Room.DISTRACTOR_POOL. set_solver. }
    unfold P in H1, H2. apply dec_stable in H1. apply dec_stable in H2.
    rewrite <- H1 in H2. discriminate.
Qed.

(** ** The stages of [App] *)

Lemma staged_step (st : App.State) (f : Callback) (args : list JS.Value) :
  App.passed (App.stage st) = Some f ->
  stage_rank (App.stage (App.handle st f args)) = stage_rank (App.stage st) + 1
  /\ (App.score (App.handle st f args) <> App.score st -> App.stage st = App.quiz).
Proof.
  unfold App.handle. destruct (App.stage st) eqn:E; intros [= <-];
    repeat case_match; simpl; split; try reflexivity; auto;
    intros H; now destruct H.
Qed.

Lemma app_run_cons (st : App.State) (g : Callback) (a : list JS.Value)
    (evs : list (Callback * list JS.Value)) :
  app_run st ((g, a) :: evs) = app_run (App.handle st g a) evs.
Proof. reflexivity. Qed.

(** X15: the stages only move forward, one at a time.  The component
    rendered in a stage is handed that stage's callback only; over any
    sequence of calls each made through the callback handed to the
    component rendered at that moment, every call advances the stage by
    exactly one, so at most three calls can be made and none on the end
    screen; the score is only ever written by the call that leaves the
    quiz, and no closure but [onComplete] writes it. *)
Theorem X15_stages_forward (st : App.State) (evs : list (Callback * list JS.Value)) :
  staged st evs ->
  stage_rank (App.stage (app_run st evs)) = stage_rank (App.stage st) + length evs
  /\ stage_rank (App.stage st) + length evs <= 3
  /\ (App.stage st = App.done -> evs = [])
  /\ (App.stage st <> App.quiz -> App.score (app_run st evs) = App.score st)
  /\ (forall f args, App.score (App.handle st f args) <> App.score st ->
        f = onComplete).
Proof.
  intros Hs.
  assert (Hrank : stage_rank (App.stage (app_run st evs))
                  = stage_rank (App.stage st) + length evs).
  { revert st Hs. induction evs as [|[g a] evs IH]; intros st Hs;
      [simpl; lia|].
    destruct Hs as [Hp Hs]. cbn [fst snd] in Hp, Hs.
    destruct (staged_step st g a Hp) as [Hr _].
    rewrite app_run_cons, (IH _ Hs), Hr. cbn [length]. lia. }
  assert (Hle : forall s, stage_rank s <= 3) by (intros []; simpl; lia).
  split; [exact Hrank|]. split; [rewrite <- Hrank; apply Hle|].
  split; [|split].
  - intros Hd. destruct evs as [|[g a] evs]; [reflexivity|].
    destruct Hs as [Hp _]. rewrite Hd in Hp. discriminate.
  - clear Hrank. revert st Hs. induction evs as [|[g a] evs IH]; intros st Hs Hq;
      [reflexivity|].
    destruct Hs as [Hp Hs]. cbn [fst snd] in Hp, Hs.
    destruct (staged_step st g a Hp) as [Hr Hsc].
    rewrite app_run_cons, IH; [|exact Hs|].
    + destruct (decide (App.score (App.handle st g a) = App.score st))
        as [E|E]; [exact E|]. now apply Hsc in E.
    + intros Hq'. rewrite Hq' in Hr. simpl in Hr. lia.
  - intros f args. unfold App.handle. destruct f; auto;
      intros H; now destruct H.
Qed.

Lemma X15_stages_forward_witness :
  staged App.init
    [(onComplete, [JS.VNumber 3]); (onFinish, []); (onDone, [JS.VClickEvent])]
  /\ stage_rank
       (App.stage
          (app_run App.init
             [(onComplete, [JS.VNumber 3]); (onFinish, []);
              (onDone, [JS.VClickEvent])]))
     = 3.
Proof.
  assert (Hs : staged App.init
                 [(onComplete, [JS.VNumber 3]); (onFinish, []);
                  (onDone, [JS.VClickEvent])])
    by (simpl; auto).
  split; [exact Hs|].
  exact (proj1 (X15_stages_forward App.init _ Hs)).
Defined.

Lemma X14_distractor_from_pool_witness :
  Room.distractorLabel always_last 0
    {| ChartDoc.id := "D4"; ChartDoc.title := ""; ChartDoc.pages := [];
       ChartDoc.issues := [Room.mkIssue "i1" "p2" "Missing signature date"] |}
    "p2"
  <> "Missing signature date".
Proof.
  apply (proj2 (X14_distractor_from_pool always_last 0
                  {| ChartDoc.id := "D4"; ChartDoc.title := ""; ChartDoc.pages := [];
                     ChartDoc.issues := [Room.mkIssue "i1" "p2" "Missing signature date"] |}
                  "p2")
           (Room.mkIssue "i1" "p2" "Missing signature date")).
  reflexivity.
Defined.

(** ** What the shuffles leave intact *)

Lemma shuffle_elem {T} (rnd : JS.Rand) (a : list T) (n : nat) (x : T) :
  x ∈ (JS.shuffle rnd a n).1 <-> x ∈ a.
Proof. now rewrite shuffle_perm. Qed.

Lemma codingCases_memo_spec (rnd : JS.Rand) (n : nat) :
  let cc := (Room.codingCases_memo rnd n).1 in
  length cc = 4
  /\ CodingCase.id <$> cc ≡ₚ ["A1"; "A2"; "B1"; "B2"]
  /\ (forall c, c ∈ cc ->
        CodingCase.correct c ∈ CodingCase.choices c
        /\ length (CodingCase.choices c) = 3).
Proof.
  unfold Room.codingCases_memo.
  pose proof (fun a m => shuffle_perm rnd (T:=string) a m) as Hs.
  pose proof (Hs ["99213 + I10"; "99203 + J06.9"; "99214 + E11.9"] n) as H1.
  destruct (JS.shuffle rnd ["99213 + I10"; "99203 + J06.9"; "99214 + E11.9"] n)
    as [ch1 n1].
  pose proof (Hs ["99213 + I10"; "99203 + J06.9"; "99212 + Z76.0"] n1) as H2.
  destruct (JS.shuffle rnd ["99213 + I10"; "99203 + J06.9"; "99212 + Z76.0"] n1)
    as [ch2 n2].
  pose proof (Hs ["99203 + J06.9"; "99213 + I10"; "99204 + J45.909"] n2) as H3.
  destruct (JS.shuffle rnd ["99203 + J06.9"; "99213 + I10"; "99204 + J45.909"] n2)
    as [ch3 n3].
  pose proof (Hs ["99203 + J06.9"; "99214 + J06.9"; "99212 + Z20.822"] n3) as H4.
  destruct (JS.shuffle rnd ["99203 + J06.9"; "99214 + J06.9"; "99212 + Z20.822"] n3)
    as [ch4 n4].
  cbn [fst] in *. cbv zeta.
  match goal with |- context [JS.shuffle rnd ?b n4] =>
    pose proof (shuffle_perm rnd b n4) as Hb; set (base := b) in * end.
  split; [rewrite Hb; reflexivity|]. split; [rewrite Hb; reflexivity|].
  intros c Hc. rewrite Hb in Hc. unfold base in Hc.
  repeat (apply elem_of_cons in Hc as [->|Hc];
          [cbn [CodingCase.correct CodingCase.choices];
           first [rewrite H1|rewrite H2|rewrite H3|rewrite H4];
           split; [set_solver|reflexivity]|]).
  inversion Hc.
Qed.

(** X16: the shuffles at mount never spoil the exercises.  Whatever the
    random source, the audit lists the ten charts, each once, with charts
    3 and 5 as its two defective ones, and the binder holds the four
    cases A1, A2, B1, B2, each with three choices among which is its
    correct answer. *)
Theorem X16_mount_data_intact (rnd : JS.Rand) (n : nat) :
  let env := Room.mountEnv rnd n in
  (Room.charts env ≡ₚ Room.charts_base
   /\ length (Room.charts env) = 10
   /\ NoDup (chart_ids env)
   /\ defective_ids env = {[ "3"; "5" ]})
  /\ (length (Room.codingCases env) = 4
      /\ CodingCase.id <$> Room.codingCases env ≡ₚ ["A1"; "A2"; "B1"; "B2"]
      /\ (forall c, c ∈ Room.codingCases env ->
            CodingCase.correct c ∈ CodingCase.choices c
            /\ length (CodingCase.choices c) = 3)).
Proof.
  intros env.
  assert (Hch : Room.charts env ≡ₚ Room.charts_base) by apply mountEnv_charts.
  split.
  - split; [exact Hch|]. split; [now rewrite Hch|].
    split; [now apply chart_ids_NoDup|now apply defective_ids_pair].
  - unfold env, Room.mountEnv.
    destruct (JS.shuffle rnd _ n) as [x n0].
    pose proof (codingCases_memo_spec rnd n0) as Hcc.
    destruct (Room.codingCases_memo rnd n0) as [cc n1].
    destruct (Room.charts_memo rnd n1) as [ch n2]. exact Hcc.
Qed.

Lemma X16_mount_data_intact_witness :
  CodingCase.correct
    {| CodingCase.id := "A1";
       CodingCase.prompt := "Established pt follow-up for hypertension, stable control.";
       CodingCase.choices := ["99213 + I10"; "99203 + J06.9"; "99214 + E11.9"];
       CodingCase.correct := "99213 + I10" |}
  ∈ ["99213 + I10"; "99203 + J06.9"; "99214 + E11.9"].
Proof.
  destruct (X16_mount_data_intact always_last 0) as (_ & _ & _ & H).
  refine (proj1 (H {| CodingCase.id := "A1"; CodingCase.prompt := _;
                      CodingCase.choices := _; CodingCase.correct := _ |} _)).
  vm_compute. apply list_elem_of_here.
Defined.

(** X17: shuffling the choices for display never hides the answer.
    Whatever the random source, the choices shown for a quiz question or
    for a step of the call are a permutation of that question's choices
    and contain its correct answer; past the last quiz question nothing
    is shown. *)
Theorem X17_shown_choices (rnd : JS.Rand) (n : nat) :
  (forall step m, Quiz.MCQS !! step = Some m ->
      (shuffledChoices rnd n step).1 ≡ₚ Quiz.choices m
      /\ Quiz.correct m ∈ (shuffledChoices rnd n step).1)
  /\ (forall step, 4 <= step -> shuffledChoices rnd n step = ([], n))
  /\ (forall st cs, Room.callSteps !! Room.callIndex st = Some cs ->
        (callChoices rnd n st).1 ≡ₚ Room.choices cs
        /\ Room.correct cs ∈ (callChoices rnd n st).1).
Proof.
  split; [|split].
  - intros step m Hm. unfold shuffledChoices. rewrite Hm.
    split; [apply shuffle_perm|]. apply shuffle_elem.
    destruct step as [|[|[|[|step]]]]; simpl in Hm; try discriminate;
      injection Hm as <-; apply list_elem_of_here.
  - intros step Hs. unfold shuffledChoices.
    rewrite (proj2 (lookup_ge_None Quiz.MCQS step)); [reflexivity|exact Hs].
  - intros st cs Hcs. unfold callChoices. rewrite Hcs.
    split; [apply shuffle_perm|]. apply shuffle_elem.
    destruct (Room.callIndex st) as [|[|[|i]]]; simpl in Hcs; try discriminate;
      injection Hcs as <-; apply list_elem_of_here.
Qed.

Lemma X17_shown_choices_witness :
  shuffledChoices always_last 0 7 = ([], 0).
Proof.
  destruct (X17_shown_choices always_last 0) as (_ & H & _).
  apply H. lia.
Defined.

(** ** The room can always be completed *)

Lemma step_closed (env : Room.Env) (st : Room.State) (a : Room.Action) :
  Room.codingOpen (Room.dispatch env st a).1 = false ->
  (Room.step env st a).1 = (Room.dispatch env st a).1.
Proof. intros H. rewrite step_state. now apply effects_closed. Qed.

Lemma run_dispatch_all (env : Room.Env) (acts : list Room.Action) :
  forall st,
    stays_closed env st acts = true ->
    (Room.run env st acts).1 = dispatch_all env st acts.
Proof.
  induction acts as [|a acts IH]; intros st H; [reflexivity|].
  simpl in H. apply andb_true_iff in H as [H1 H2].
  apply negb_true_iff in H1.
  rewrite run_cons_room. cbn [fst]. rewrite step_closed by exact H1.
  now apply IH.
Qed.

Lemma codingAllCorrect_empty (env : Room.Env) (st : Room.State) :
  Room.codingAnswers st = ∅ -> Room.codingAllCorrect env st = false.
Proof.
  intros E. unfold Room.codingAllCorrect. rewrite E.
  destruct (Room.codingCases env) as [|c l]; [reflexivity|].
  simpl. now rewrite lookup_empty.
Qed.

Lemma run_flags (env : Room.Env) (acts : list Room.Action) :
  forall st,
    (Room.callComplete st = true ->
     Room.callComplete (Room.run env st acts).1 = true)
    /\ (Room.auditDone st = true ->
        Room.auditDone (Room.run env st acts).1 = true).
Proof.
  induction acts as [|a acts IH]; intros st; [auto|].
  rewrite run_cons_room. cbn [fst].
  destruct (IH (Room.step env st a).1) as [H1 H2].
  rewrite step_state in *.
  destruct (effects_flags env (Room.dispatch env st a).1) as (Ec & Ea & _).
  destruct (dispatch_flags env st a) as [Hc Ha].
  split; intros H; [apply H1|apply H2]; rewrite ?Ec, ?Ea; auto.
Qed.

(** Clicking the correct choice of each case in the open binder stores
    exactly those answers. *)
Lemma run_binder_clicks (env : Room.Env) (rest : list CodingCase.t) :
  forall (k : nat) (st : Room.State),
    Room.codingOpen st = true ->
    (forall j c, rest !! j = Some c ->
       Room.codingCases env !! (k + j) = Some c
       /\ CodingCase.correct c ∈ CodingCase.choices c) ->
    let st' := (Room.run env st (binder_clicks rest k)).1 in
    Room.codingOpen st' = true
    /\ Room.codingAnswers st'
       = foldl (fun m c => <[CodingCase.id c := CodingCase.correct c]> m)
           (Room.codingAnswers st) rest.
Proof.
  induction rest as [|c rest IH]; intros k st Ho Hl; [now split|].
  cbn [binder_clicks]. rewrite run_cons_room. cbn [fst].
  destruct (Hl 0 c eq_refl) as [Hc Hin]. rewrite Nat.add_0_r in Hc.
  assert (E : Room.dispatch env st (Room.SelectCoding k (CodingCase.correct c))
              = (Room.selectCoding c (CodingCase.correct c) st, [])).
  { unfold Room.dispatch. rewrite Ho, Hc. now rewrite bool_decide_eq_true_2. }
  assert (Es : Room.codingOpen (Room.step env st (Room.SelectCoding k (CodingCase.correct c))).1 = true
               /\ Room.codingAnswers (Room.step env st (Room.SelectCoding k (CodingCase.correct c))).1
                  = <[CodingCase.id c := CodingCase.correct c]> (Room.codingAnswers st)).
  { rewrite step_state, E. cbn [fst]. unfold Room.effects.
    case_match; cbn; auto. }
  destruct Es as [Eo Ea].
  destruct (IH (S k) _ Eo) as [H1 H2].
  { intros j c' Hj. replace (S k + j) with (k + S j) by lia. now apply Hl. }
  split; [exact H1|]. rewrite H2, Ea. reflexivity.
Qed.

Lemma foldl_insert_other (rest : list CodingCase.t) :
  forall (m : gmap string string) (key : string),
    key ∉ CodingCase.id <$> rest ->
    foldl (fun m c => <[CodingCase.id c := CodingCase.correct c]> m) m rest !! key
    = m !! key.
Proof.
  induction rest as [|c rest IH]; intros m key Hk; [reflexivity|].
  rewrite fmap_cons in Hk. apply not_elem_of_cons in Hk as [Hne Hk].
  simpl. rewrite IH by exact Hk. now rewrite lookup_insert_ne.
Qed.

Lemma foldl_insert_all (rest : list CodingCase.t) :
  forall m : gmap string string,
    NoDup (CodingCase.id <$> rest) ->
    forall c, c ∈ rest ->
      foldl (fun m c => <[CodingCase.id c := CodingCase.correct c]> m) m rest
        !! CodingCase.id c
      = Some (CodingCase.correct c).
Proof.
  induction rest as [|c0 rest IH]; intros m Hnd c Hc; [inversion Hc|].
  rewrite fmap_cons in Hnd. apply NoDup_cons in Hnd as [Hn0 Hnd].
  apply elem_of_cons in Hc as [->|Hc]; simpl.
  - rewrite foldl_insert_other by exact Hn0. apply lookup_insert_eq.
  - now apply IH.
Qed.

Lemma dispatch_toggle (env : Room.Env) (st : Room.State) (i : nat) (row : ChartRow.t) :
  Room.auditOpen st = true ->
  Room.charts env !! i = Some row ->
  Room.dispatch env st (Room.ToggleChart i) = (Room.toggleAudit (ChartRow.id row) st, []).
Proof. intros Ho Hr. unfold Room.dispatch. now rewrite Ho, Hr. Qed.

Section completable.
Variable env : Room.Env.
Hypothesis charts_perm : Room.charts env ≡ₚ Room.charts_base.
Hypothesis cases_some : Room.codingCases env <> [].
Hypothesis cases_ids : NoDup (CodingCase.id <$> Room.codingCases env).
Hypothesis cases_answerable :
  forall c, c ∈ Room.codingCases env -> CodingCase.correct c ∈ CodingCase.choices c.
Variables (i3 i5 : nat) (r3 r5 : ChartRow.t).
Hypothesis row3 : Room.charts env !! i3 = Some r3.
Hypothesis id3 : ChartRow.id r3 = "3".
Hypothesis row5 : Room.charts env !! i5 = Some r5.
Hypothesis id5 : ChartRow.id r5 = "5".

(** The state after the call and the audit, before the binder is opened:
    the same whatever the memoized data. *)
Lemma run_call_and_audit :
  exists s4 : Room.State,
    (Room.run env Room.init
       ((call_actions ++ [Room.ClickCabinet])
        ++ [Room.ToggleChart i3; Room.ToggleChart i5]
        ++ judge_D1 ++ [Room.ClickSubmitSelection])).1 = s4
    /\ Room.callComplete s4 = true /\ Room.auditDone s4 = true
    /\ Room.codingOpen s4 = false /\ Room.codingAnswers s4 = ∅.
Proof.
  pose (A1 := (call_actions ++ [Room.ClickCabinet])%list).
  pose (s1 := dispatch_all env_unshuffled Room.init A1).
  pose (s2a := Room.toggleAudit "3" s1).
  pose (s2 := Room.toggleAudit "5" s2a).
  pose (s3 := dispatch_all env_unshuffled s2 judge_D1).
  pose (s4 := Room.setAuditDone true s3).
  assert (C1 : stays_closed env Room.init A1 = true) by (vm_compute; reflexivity).
  assert (D1 : dispatch_all env Room.init A1 = s1) by (vm_compute; reflexivity).
  assert (F1 : Room.auditOpen s1 = true) by (vm_compute; reflexivity).
  assert (F2 : Room.codingOpen s2a = false) by (vm_compute; reflexivity).
  assert (F3 : Room.auditOpen s2a = true) by (vm_compute; reflexivity).
  assert (F4 : Room.codingOpen s2 = false) by (vm_compute; reflexivity).
  assert (C3 : stays_closed env s2 judge_D1 = true) by (vm_compute; reflexivity).
  assert (D3 : dispatch_all env s2 judge_D1 = s3) by (vm_compute; reflexivity).
  assert (F5 : Room.auditOpen s3 && negb (Room.auditDone s3) = true)
    by (vm_compute; reflexivity).
  assert (F6 : Room.auditSelected s3 = ["3"; "5"]) by (vm_compute; reflexivity).
  assert (F7 : (length (Room.foundIssues s3) <? 3) = false)
    by (vm_compute; reflexivity).
  assert (F8 : Room.codingOpen s4 = false) by (vm_compute; reflexivity).
  assert (F9 : Room.callComplete s4 = true /\ Room.auditDone s4 = true
               /\ Room.codingAnswers s4 = ∅) by (vm_compute; auto).
  assert (S4 : s4 = Room.setAuditDone true s3) by reflexivity.
  assert (S2 : s2 = Room.toggleAudit "5" s2a) by reflexivity.
  assert (S2a : s2a = Room.toggleAudit "3" s1) by reflexivity.
  assert (EA : A1 = (call_actions ++ [Room.ClickCabinet])%list) by reflexivity.
  clearbody s4 s3 s2 s2a s1. clearbody A1.
  (* the call and the cabinet *)
  assert (R1 : (Room.run env Room.init A1).1 = s1)
    by (rewrite run_dispatch_all by exact C1; exact D1).
  (* the two charts *)
  assert (R2 : (Room.run env Room.init
                  (A1 ++ [Room.ToggleChart i3; Room.ToggleChart i5])).1 = s2).
  { rewrite run_app_room, R1, !run_cons_room. cbn [fst Room.run].
    assert (E3 : Room.dispatch env s1 (Room.ToggleChart i3) = (s2a, [])).
    { rewrite (dispatch_toggle env s1 i3 r3 F1 row3), id3, S2a. reflexivity. }
    rewrite (step_closed env s1) by (rewrite E3; exact F2).
    rewrite E3. cbn [fst].
    assert (E5 : Room.dispatch env s2a (Room.ToggleChart i5) = (s2, [])).
    { rewrite (dispatch_toggle env s2a i5 r5 F3 row5), id5, S2. reflexivity. }
    rewrite (step_closed env s2a) by (rewrite E5; exact F4).
    rewrite E5. reflexivity. }
  (* the three pages *)
  assert (R3 : (Room.run env Room.init
                  ((A1 ++ [Room.ToggleChart i3; Room.ToggleChart i5])
                   ++ judge_D1)).1 = s3).
  { rewrite run_app_room, R2. rewrite run_dispatch_all by exact C3. exact D3. }
  (* the submission *)
  assert (Hinv : room_inv env s3).
  { rewrite <- R3. apply room_inv_run, room_inv_init. }
  assert (E4 : Room.dispatch env s3 Room.ClickSubmitSelection = (s4, [])).
  { unfold Room.dispatch. rewrite F5.
    rewrite (handleAuditCheck_spec env charts_perm s3 Hinv), F7.
    assert (Hsel : selected_set s3 = defective_ids env).
    { rewrite (defective_ids_pair env charts_perm). unfold selected_set.
      rewrite F6. set_solver. }
    rewrite decide_True
      by (rewrite Hsel; apply (defective_set_size env charts_perm)).
    rewrite decide_True by exact Hsel. now rewrite S4. }
  exists s4. split; [|tauto].
  rewrite <- EA, !app_assoc, run_app_room, R3, run_cons_room.
  cbn [fst Room.run].
  rewrite (step_closed env s3) by (rewrite E4; exact F8).
  now rewrite E4.
Qed.

Lemma winning_session :
  let r := Room.run env Room.init (winning_actions env i3 i5) in
  Room.allTasksDone r.1 = true /\ finish_calls r.2 = 1.
Proof.
  intros r.
  destruct run_call_and_audit as (s4 & R4 & Hc & Ha & Ho & Hans).
  set (pre := ((call_actions ++ [Room.ClickCabinet])
               ++ [Room.ToggleChart i3; Room.ToggleChart i5]
               ++ judge_D1 ++ [Room.ClickSubmitSelection])%list) in R4.
  assert (Ew : winning_actions env i3 i5
               = (pre ++ Room.ClickBinder
                       :: binder_clicks (Room.codingCases env) 0)%list).
  { unfold winning_actions, pre. now rewrite <- !app_assoc. }
  (* opening the binder *)
  assert (E5 : (Room.step env s4 Room.ClickBinder).1 = Room.setCodingOpen true s4).
  { rewrite step_state. unfold Room.dispatch. rewrite Hc. cbn [fst].
    unfold Room.effects.
    now rewrite (codingAllCorrect_empty env (Room.setCodingOpen true s4) Hans). }
  (* answering the cases *)
  destruct (run_binder_clicks env (Room.codingCases env) 0
              (Room.setCodingOpen true s4) eq_refl) as [_ Hanswers].
  { intros j c Hj. split; [exact Hj|].
    apply cases_answerable. eapply list_elem_of_lookup_2, Hj. }
  assert (Er : r.1 = (Room.run env (Room.setCodingOpen true s4)
                        (binder_clicks (Room.codingCases env) 0)).1).
  { unfold r. rewrite Ew, run_app_room, R4, run_cons_room. cbn [fst].
    now rewrite E5. }
  assert (Hall : Room.codingAllCorrect env r.1 = true).
  { apply codingAllCorrect_spec. split; [exact cases_some|].
    intros c Hin. rewrite Er, Hanswers. now apply foldl_insert_all. }
  assert (Hdone : Room.allTasksDone r.1 = true).
  { unfold Room.allTasksDone.
    destruct (run_flags env (binder_clicks (Room.codingCases env) 0)
                (Room.setCodingOpen true s4)) as [H1 H2].
    rewrite <- Er in H1, H2. rewrite (H1 Hc), (H2 Ha).
    rewrite (inv_coding env r.1 (room_inv_run env _ _ (room_inv_init env)) Hall).
    reflexivity. }
  split; [exact Hdone|].
  unfold r in *. rewrite (proj2 (run_finish_calls env _ Room.init)), Hdone.
  reflexivity.
Qed.

End completable.

Lemma mountEnv_cases (rnd : JS.Rand) (n : nat) :
  length (Room.codingCases (Room.mountEnv rnd n)) = 4
  /\ CodingCase.id <$> Room.codingCases (Room.mountEnv rnd n)
     ≡ₚ ["A1"; "A2"; "B1"; "B2"]
  /\ (forall c, c ∈ Room.codingCases (Room.mountEnv rnd n) ->
        CodingCase.correct c ∈ CodingCase.choices c
        /\ length (CodingCase.choices c) = 3).
Proof.
  unfold Room.mountEnv.
  destruct (JS.shuffle rnd _ n) as [x n0].
  pose proof (codingCases_memo_spec rnd n0) as Hcc.
  destruct (Room.codingCases_memo rnd n0) as [cc n1].
  destruct (Room.charts_memo rnd n1) as [ch n2]. exact Hcc.
Qed.

Lemma base_ids_3_5 :
  "3" ∈ ChartRow.id <$> Room.charts_base /\ "5" ∈ ChartRow.id <$> Room.charts_base.
Proof. split; apply (bool_decide_unpack _); vm_compute; exact I. Qed.

Lemma case_ids_NoDup : NoDup ["A1"; "A2"; "B1"; "B2"].
Proof. apply (bool_decide_unpack _). vm_compute. exact I. Qed.

(** X18: the room can always be completed.  Whatever the random source,
    two rows of the shuffled chart list are charts 3 and 5, and the
    session that takes the call, ticks those two rows, judges the three
    pages of D1, submits the audit and clicks the correct choice of every
    case of the binder ends with the call, the binder and the audit all
    done and [onFinish] called exactly once. *)
Theorem X18_room_completable (rnd : JS.Rand) (n : nat) :
  let env := Room.mountEnv rnd n in
  exists i3 i5 : nat,
    ChartRow.id <$> Room.charts env !! i3 = Some "3"
    /\ ChartRow.id <$> Room.charts env !! i5 = Some "5"
    /\ Room.allTasksDone (Room.run env Room.init (winning_actions env i3 i5)).1
       = true
    /\ finish_calls (Room.run env Room.init (winning_actions env i3 i5)).2 = 1.
Proof.
  pose proof (mountEnv_charts rnd n) as Hch.
  destruct (mountEnv_cases rnd n) as (Hlen & Hids & Hans).
  generalize dependent (Room.mountEnv rnd n). intros env Hch Hlen Hids Hans.
  cbv zeta.
  assert (Hrow : forall id, id ∈ ChartRow.id <$> Room.charts_base ->
                   exists i r, Room.charts env !! i = Some r /\ ChartRow.id r = id).
  { intros id Hid. rewrite <- Hch in Hid.
    apply list_elem_of_fmap in Hid as (r & -> & Hr).
    apply list_elem_of_lookup in Hr as [i Hi]. eauto. }
  destruct (Hrow "3" (proj1 base_ids_3_5)) as (i3 & r3 & H3 & E3).
  destruct (Hrow "5" (proj2 base_ids_3_5)) as (i5 & r5 & H5 & E5).
  assert (Hne : Room.codingCases env <> [])
    by (intros E; rewrite E in Hlen; discriminate).
  assert (Hnd : NoDup (CodingCase.id <$> Room.codingCases env))
    by (rewrite Hids; exact case_ids_NoDup).
  assert (Hcor : forall c, c ∈ Room.codingCases env ->
                   CodingCase.correct c ∈ CodingCase.choices c)
    by (intros c Hc; now apply Hans).
  destruct (winning_session env Hch Hne Hnd Hcor i3 i5 r3 r5 H3 E3 H5 E5)
    as [Hd Hf].
  exists i3, i5. rewrite H3, H5. cbn [fmap option_fmap option_map].
  rewrite E3, E5. auto.
Qed.

Lemma X12_room_gate_once_witness :
  let r := Room.run env_unshuffled Room.init (winning_actions env_unshuffled 2 4) in
  Room.allTasksDone r.1 = true
  /\ finish_calls (Room.run env_unshuffled r.1 [Room.ClickBinder]).2 = 0.
Proof.
  intros r.
  assert (Hd : Room.allTasksDone r.1 = true) by (vm_compute; reflexivity).
  split; [exact Hd|].
  exact (proj2 (proj1 (proj2
           (X12_room_gate_once env_unshuffled
              (winning_actions env_unshuffled 2 4) [Room.ClickBinder])) Hd)).
Defined.
